(** * DBC back end of the flow-graph compiler

    A shallow embedding of [runtime/vm/compiler/backend/flow_graph_compiler_dbc.cc]:
    deoptimization-table synthesis ([CompilerDeoptInfo::CreateDeoptInfo]),
    call-site recording ([FlowGraphCompiler::RecordAfterCallHelper]), trivial
    accessor emission ([GenerateInlinedGetter] / [GenerateInlinedSetter]) and
    the move emitters of the parallel move resolver ([EmitMove], [EmitSwap]).

    The C++ code mutates a compiler, an assembler and a builder object.  Here
    every such method is a computation in a small state-and-failure monad over
    the mutated object.  [ASSERT] is modelled with its checked (debug build)
    meaning: a failed assertion stops the computation.

    [Environment] objects are reached by pointer and changed in place
    ([DropArguments]), and the pending environment of the compiler is also
    held by the [CompilerDeoptInfo]s attached while it was pending.  The
    compiler therefore carries the environments of its zone
    ([environments_]), and both the pending environment and the infos of
    [deopt_infos_] refer to them by position.

    [intptr_t] quantities (slot indices, deopt ids, field offsets) are
    integers of [Z]: the code adds one to them or divides them, signed
    overflow is undefined in C++ and out of reach for the sizes that occur.
    Counts and array indices are natural numbers. *)

From Stdlib Require Import ZArith Lia String List.
From stdpp Require Import base option list.
Import ListNotations.

Set Default Proof Using "Type".
Local Set Warnings "-register-all,-notation-for-abbreviation".

(* ================================================================== *)
(** ** Outcomes and the state monad                                    *)
(* ================================================================== *)

(** How a method call ends: normally with a result and the new state, in a
    failed [ASSERT], or in [FlowGraphCompiler::Bailout], which abandons the
    compilation of the function with a reason; the state reached when bailing
    out is kept so that what had been emitted can be inspected. *)
Inductive Outcome (S A : Type) : Type :=
| Done (a : A) (s : S)
| AssertionFailed
| BailedOut (reason : string) (s : S).

Arguments Done {S A} a s.
Arguments AssertionFailed {S A}.
Arguments BailedOut {S A} reason s.

Definition M (S A : Type) : Type := S -> Outcome S A.

Definition ret {S A} (a : A) : M S A := fun s => Done a s.

Definition bind {S A B} (m : M S A) (k : A -> M S B) : M S B :=
  fun s =>
    match m s with
    | Done a s' => k a s'
    | AssertionFailed => AssertionFailed
    | BailedOut r s' => BailedOut r s'
    end.

Definition get {S} : M S S := fun s => Done s s.
Definition modify {S} (f : S -> S) : M S unit := fun s => Done tt (f s).

(** [ASSERT(cond)] *)
Definition ASSERT {S} (cond : bool) : M S unit :=
  fun s => if cond then Done tt s else AssertionFailed.

(** A null pointer dereference or an out-of-range array access. *)
Definition fail_assert {S A} : M S A := fun _ => AssertionFailed.

Declare Scope dbc_scope.
Delimit Scope dbc_scope with dbc.
Notation "'let*' x ':=' m 'in' k" := (bind m (fun x => k))
  (at level 10, x name, m at level 100, k at level 200) : dbc_scope.
Notation "m '>>' k" := (bind m (fun _ => k))
  (at level 100, k at level 200, right associativity) : dbc_scope.
Open Scope dbc_scope.

(* ================================================================== *)
(** ** Objects, locations and the instruction sink                     *)
(* ================================================================== *)

Definition Register := Z.
Definition FunctionId := nat.

(** Handles to functions.  [Function::ZoneHandle(zone)] allocates a handle in
    the zone without binding it to a function: [Function_null]. *)
Inductive Function : Type :=
| Function_null
| Function_ref (f : FunctionId).

Definition Function_ZoneHandle : Function := Function_null.

(** Heap objects as far as this file looks into them.  A [Double] is kept as
    the 64-bit pattern of its value, which is all that
    [Utils::DoublesBitEqual] inspects. *)
Inductive Object : Type :=
| Object_null
| Object_double (bits : Z)
| Object_function (f : Function)
| Object_instance (id : nat).

(** [Object::Handle()] *)
Definition Object_Handle : Object := Object_null.

Definition positive_zero_bits : Z := 0.
Definition negative_zero_bits : Z := 2 ^ 63.

(** Modelled from the spec: [Utils::DoublesBitEqual] (vm/utils.h is not in
    flow_graph_compiler_dbc.cc) compares bit patterns: "a floating-point value
    whose bit pattern is exactly positive zero ... negative zero must NOT take
    this path -- its bit pattern differs". *)
Definition DoublesBitEqual (a b : Z) : bool := (a =? b)%Z.

Inductive Representation : Type :=
| kTagged
| kUnboxedDouble
| kUnboxedInt64.

Definition Representation_eqb (a b : Representation) : bool :=
  match a, b with
  | kTagged, kTagged | kUnboxedDouble, kUnboxedDouble
  | kUnboxedInt64, kUnboxedInt64 => true
  | _, _ => false
  end.

(** [ConstantInstr]: the constant and the representation it is used in. *)
Record ConstantInstr : Type := mkConstantInstr {
  value : Object;
  representation : Representation
}.

(** Modelled from the spec: the [Location] class (vm/compiler/backend/locations.h
    is not in flow_graph_compiler_dbc.cc).  Data model: "tagged variant:
    Register(id), StackSlot(base, offset), Constant(value),
    ArgsDescriptorPseudoReg, ExceptionPseudoReg, StackTracePseudoReg". *)
Inductive Location : Type :=
| Location_Register (reg : Register)
| Location_StackSlot (base_reg : Register) (stack_index : Z)
| Location_Constant (constant_instruction : ConstantInstr)
| Location_ArgsDescRegister
| Location_ExceptionRegister
| Location_StackTraceRegister.

Definition IsRegister (l : Location) : bool :=
  match l with Location_Register _ => true | _ => false end.
Definition IsStackSlot (l : Location) : bool :=
  match l with Location_StackSlot _ _ => true | _ => false end.
Definition IsConstant (l : Location) : bool :=
  match l with Location_Constant _ => true | _ => false end.
Definition IsArgsDescRegister (l : Location) : bool :=
  match l with Location_ArgsDescRegister => true | _ => false end.
Definition IsExceptionRegister (l : Location) : bool :=
  match l with Location_ExceptionRegister => true | _ => false end.
Definition IsStackTraceRegister (l : Location) : bool :=
  match l with Location_StackTraceRegister => true | _ => false end.

(** The accessors of [Location] assert the kind they are used at. *)
Definition reg {S} (l : Location) : M S Register :=
  match l with Location_Register r => ret r | _ => fail_assert end.
Definition base_reg {S} (l : Location) : M S Register :=
  match l with Location_StackSlot b _ => ret b | _ => fail_assert end.
Definition stack_index {S} (l : Location) : M S Z :=
  match l with Location_StackSlot _ i => ret i | _ => fail_assert end.
Definition constant_instruction {S} (l : Location) : M S ConstantInstr :=
  match l with Location_Constant c => ret c | _ => fail_assert end.
(** [Location::constant()] is the value of the constant instruction. *)
Definition constant {S} (l : Location) : M S Object :=
  match l with Location_Constant c => ret (value c) | _ => fail_assert end.

(** [Double::Cast(obj).value()], as a bit pattern. *)
Definition Double_Cast_value {S} (o : Object) : M S Z :=
  match o with Object_double bits => ret bits | _ => fail_assert end.

#[global] Instance Function_eq_dec : EqDecision Function.
Proof. solve_decision. Defined.
#[global] Instance Object_eq_dec : EqDecision Object.
Proof. solve_decision. Defined.
#[global] Instance Representation_eq_dec : EqDecision Representation.
Proof. solve_decision. Defined.
#[global] Instance ConstantInstr_eq_dec : EqDecision ConstantInstr.
Proof. solve_decision. Defined.
#[global] Instance Location_eq_dec : EqDecision Location.
Proof. solve_decision. Defined.

(** [Location::Equals]: structural equality. *)
Definition Location_Equals (a b : Location) : bool := bool_decide (a = b).

(** [Simulator::kExceptionSpecialIndex], [Simulator::kStackTraceSpecialIndex] *)
Inductive SpecialIndex : Type :=
| kExceptionSpecialIndex
| kStackTraceSpecialIndex.

(** The bytecodes this file hands to the assembler, which is a write-only
    sink: the emitted sequence is the list, oldest first. *)
Inductive Bytecode : Type :=
| Move (rd : Register) (rs : Z)
| Swap (ra rb : Register)
| LoadField (rd rs : Register) (offset_in_words : Z)
| LoadFieldExt (rd rs : Register)
| StoreField (ra : Register) (offset_in_words : Z) (rc : Register)
| StoreFieldExt (ra rc : Register)
| Nop (d : Z)
| LoadConstant (rd : Register) (obj : Object)
| UnboxDouble (rd rs : Register)
| BitXor (rd ra rb : Register)
| LoadArgDescriptorOpt (rd : Register)
| MoveSpecial (rd : Register) (index : SpecialIndex)
| Return (r : Register).

Definition Assembler := list Bytecode.

(** Modelled from the spec: [Utils::IsInt(N, value)] (vm/utils.h is not in
    flow_graph_compiler_dbc.cc): "fits a narrow signed immediate" of [N] bits. *)
Definition IsInt (N : Z) (v : Z) : bool :=
  ((- 2 ^ (N - 1) <=? v) && (v <? 2 ^ (N - 1)))%Z.

(** [compiler_frame_layout]: the frame-pointer-relative slot numbering shared
    by all components. *)
Record FrameLayout : Type := mkFrameLayout {
  param_end_from_fp : Z;
  FrameSlotForVariableIndex : Z -> Z
}.

(* ================================================================== *)
(** ** Environments and the deoptimization-table builder               *)
(* ================================================================== *)

Definition ValueId := nat.

(** Modelled from the spec: [MaterializeObjectInstr] (the IL is not in
    flow_graph_compiler_dbc.cc).  "Materialization descriptor -- identifies a
    composite/boxed value to be reconstructed at deopt time from N constituent
    source Locations". *)
Record MaterializeObjectInstr : Type := mkMaterializeObject {
  mat_id : nat;
  mat_inputs : list (ValueId * Location)
}.

(** A value of an environment; [materialize] is set when the instruction that
    defines the value is flagged for materialization. *)
Record Value : Type := mkValue {
  value_id : ValueId;
  materialize : option MaterializeObjectInstr
}.

(** Modelled from the spec: [Environment] (the IL is not in
    flow_graph_compiler_dbc.cc): the slots (value and location), the number of fixed
    parameters, the owning function, the deopt id of the call recorded in it
    and the link to the caller's environment. *)
Inductive Environment : Type := mkEnvironment {
  values_ : list (Value * Location);
  fixed_parameter_count : nat;
  function : Function;
  deopt_id : Z;
  outer : option Environment
}.

Definition Length (env : Environment) : nat := length (values_ env).

(** [env->ValueAt(i)] and [env->LocationAt(i)] index a growable array, which
    asserts that the index is in range. *)
Definition ValueAt {S} (env : Environment) (i : nat) : M S Value :=
  match values_ env !! i with
  | Some (v, _) => ret v
  | None => fail_assert
  end.

Definition LocationAt {S} (env : Environment) (i : nat) : M S Location :=
  match values_ env !! i with
  | Some (_, l) => ret l
  | None => fail_assert
  end.

(** Modelled from the spec: [Environment::DropArguments] (the IL is not in
    flow_graph_compiler_dbc.cc): the explicit "drop trailing N slots" operation. *)
Definition DropArguments (argc : nat) (env : Environment) : Environment :=
  mkEnvironment (take (Length env - argc) (values_ env))
                (fixed_parameter_count env) (function env) (deopt_id env)
                (outer env).

(** Modelled from the spec: [DeoptId::ToDeoptAfter] (not in
    flow_graph_compiler_dbc.cc): "deopt_id_after = deopt_id + 1 (the continue after call
    id)". *)
Definition ToDeoptAfter (deopt_id : Z) : Z := (deopt_id + 1)%Z.

(** The descriptor kinds of the deoptimization table (external interfaces,
    output A). *)
Inductive SlotDescriptor : Type :=
| CallerFp
| ReturnAddress (f : Function) (deopt_id : Z)
| PcMarker (f : Function)
| Constant (obj : Object)
| Copy (value : option ValueId) (source_loc : Location)
| CallerPc.

(** What the builder has been told, oldest first: materialization
    descriptors, the frame-start marker, and slot descriptors with the slot
    index they were added at. *)
Inductive DeoptInstr : Type :=
| MaterializeObject (mat : MaterializeObjectInstr)
| FrameStart
| Slot (dest_index : Z) (d : SlotDescriptor).

(** Modelled from the spec: [DeoptInfoBuilder] (vm/deopt_instructions.h is not in
    flow_graph_compiler_dbc.cc): "a growing ordered list of typed slot
    descriptors; a separate list of materialization descriptors";
    [current_info_number_] is the counter [CreateDeoptInfo] increments. *)
Record DeoptInfoBuilder : Type := mkDeoptInfoBuilder {
  instructions_ : list DeoptInstr;
  materializations_ : list MaterializeObjectInstr;
  current_info_number_ : Z
}.

Definition add_instruction (i : DeoptInstr) : M DeoptInfoBuilder unit :=
  modify (fun b => mkDeoptInfoBuilder (instructions_ b ++ [i])
                                      (materializations_ b)
                                      (current_info_number_ b)).

(** Modelled from the spec: the [Add...] methods of the builder append one
    descriptor of their kind for slot [dest_index]. *)
Definition AddCallerFp (dest_index : Z) : M DeoptInfoBuilder unit :=
  add_instruction (Slot dest_index CallerFp).
Definition AddCallerPc (dest_index : Z) : M DeoptInfoBuilder unit :=
  add_instruction (Slot dest_index CallerPc).
Definition AddReturnAddress (f : Function) (deopt_id : Z) (dest_index : Z)
  : M DeoptInfoBuilder unit :=
  add_instruction (Slot dest_index (ReturnAddress f deopt_id)).
Definition AddPcMarker (f : Function) (dest_index : Z)
  : M DeoptInfoBuilder unit :=
  add_instruction (Slot dest_index (PcMarker f)).
Definition AddConstant (obj : Object) (dest_index : Z)
  : M DeoptInfoBuilder unit :=
  add_instruction (Slot dest_index (Constant obj)).
Definition AddCopy (value : option ValueId) (source_loc : Location)
                   (dest_index : Z) : M DeoptInfoBuilder unit :=
  add_instruction (Slot dest_index (Copy value source_loc)).

(** Modelled from the spec: [MarkFrameStart] puts down the "frame-start
    marker". *)
Definition MarkFrameStart : M DeoptInfoBuilder unit :=
  add_instruction FrameStart.

(** Modelled from the spec: [AddMaterialization] records one materialization
    descriptor, in the builder's separate list and in the emitted prefix. *)
Definition AddMaterialization (mat : MaterializeObjectInstr)
  : M DeoptInfoBuilder unit :=
  modify (fun b => mkDeoptInfoBuilder
                     (instructions_ b ++ [MaterializeObject mat])
                     (materializations_ b ++ [mat])
                     (current_info_number_ b)).

(** The materializations flagged in one environment, in slot order. *)
Definition flagged (env : Environment) : list MaterializeObjectInstr :=
  omap (fun slot => materialize (fst slot)) (values_ env).

(** The materializations flagged anywhere in a chain, innermost frame first. *)
Fixpoint flagged_in_chain (env : Environment) : list MaterializeObjectInstr :=
  flagged env ++
  match outer env with
  | None => []
  | Some o => flagged_in_chain o
  end.

Fixpoint AddMaterializations (mats : list MaterializeObjectInstr)
  : M DeoptInfoBuilder unit :=
  match mats with
  | [] => ret tt
  | mat :: rest => AddMaterialization mat >> AddMaterializations rest
  end.

(** Modelled from the spec: [CompilerDeoptInfo::EmitMaterializations] (not in
    flow_graph_compiler_dbc.cc) emits "all materialization descriptors for
    instructions flagged materialize"; the comment at its call says "Emit all
    kMaterializeObject instructions describing objects to be materialized on
    the deoptimization as a prefix to the deoptimization info". *)
Definition EmitMaterializations (env : Environment)
  : M DeoptInfoBuilder unit :=
  AddMaterializations (flagged_in_chain env).

(** The copies of the source values of one materialization. *)
Fixpoint AddMaterializationInputs (inputs : list (ValueId * Location))
                                  (dest_index : Z) : M DeoptInfoBuilder Z :=
  match inputs with
  | [] => ret dest_index
  | (v, l) :: rest =>
      AddCopy (Some v) l dest_index >>
      AddMaterializationInputs rest (dest_index + 1)
  end.

Fixpoint AddMaterializationArguments (mats : list MaterializeObjectInstr)
                                     (dest_index : Z) : M DeoptInfoBuilder Z :=
  match mats with
  | [] => ret dest_index
  | mat :: rest =>
      let* dest_index := AddMaterializationInputs (mat_inputs mat) dest_index in
      AddMaterializationArguments rest dest_index
  end.

(** Modelled from the spec: [DeoptInfoBuilder::EmitMaterializationArguments]
    (not in flow_graph_compiler_dbc.cc) emits, for every materialization
    descriptor of the builder, the "copies of its source values onto the
    frame's value-stack representation" and returns the next free slot index;
    the comment at its call says "Emit all values that are needed for
    materialization as a part of the expression stack for the bottom-most
    frame". *)
Definition EmitMaterializationArguments (dest_index : Z)
  : M DeoptInfoBuilder Z :=
  let* b := get in
  AddMaterializationArguments (materializations_ b) dest_index.

(** [ICData::DeoptReasonId] *)
Inductive DeoptReasonId : Type :=
| kDeoptAtCall
| kDeoptOther (id : nat).

Definition DeoptReasonId_eqb (a b : DeoptReasonId) : bool :=
  match a, b with
  | kDeoptAtCall, kDeoptAtCall => true
  | kDeoptOther x, kDeoptOther y => Nat.eqb x y
  | _, _ => false
  end.

(** Modelled from the spec: [CompilerDeoptInfo] (its declaration is not in
    flow_graph_compiler_dbc.cc): "one per deopt id: holds the associated
    Environment chain ... and a boolean lazy_deopt_with_result";
    [info_deopt_id] and [reason] are what [deopt_id()] and [reason()] read in
    [CreateDeoptInfo]. *)
Record CompilerDeoptInfo : Type := mkCompilerDeoptInfo {
  info_deopt_id : Z;
  reason : DeoptReasonId;
  deopt_env_ : option Environment;
  lazy_deopt_with_result_ : bool
}.

(** [RawTypedData*]: [TypedData::null()] or what the builder packed. *)
Inductive RawTypedData : Type :=
| TypedData_null
| TypedData_packed (payload : list DeoptInstr).

Definition Array := list Object.

(* ================================================================== *)
(** ** The compiler object                                             *)
(* ================================================================== *)

(** [RawPcDescriptors::Kind] *)
Inductive PcDescriptorKind : Type :=
| kDeopt
| kIcCall
| kUnoptStaticCall
| kRuntimeCall
| kOsrEntry
| kOther.

Definition TokenPosition := Z.

(** One row of the pc descriptor table (external interfaces, output C), with
    the deopt id it was recorded for. *)
Record PcDescriptor : Type := mkPcDescriptor {
  pd_kind : PcDescriptorKind;
  pd_pc_offset : Z;
  pd_deopt_id : Z;
  pd_token_pos : TokenPosition
}.

(** [LocationSummary]: the location assignments of one instruction. *)
Record LocationSummary : Type := mkLocationSummary {
  ins : list Location;
  outs : list Location
}.

(** [FlowGraphCompiler::CallResult] *)
Inductive CallResult : Type :=
| kHasResult
| kNoResult.

Definition CallResult_eqb (a b : CallResult) : bool :=
  match a, b with
  | kHasResult, kHasResult | kNoResult, kNoResult => true
  | _, _ => false
  end.

(** An [Environment*]: environments are objects of the zone of the
    compilation, and a pointer is the position of the object in
    [environments_] of the compiler.  What is shared is the object a pointer
    leads to; nothing in this file writes to an outer environment, so an
    environment carries its [outer] chain as a value. *)
Notation EnvironmentPtr := nat (only parsing).

(** Modelled from the spec: a [CompilerDeoptInfo] as the compiler holds it.
    The data model has it hold "the associated Environment chain (shared, not
    owned ...)": the chain is a pointer here, so that a change of the
    environment in place is seen by every info that points to it. *)
Record CompilerDeoptInfoRef : Type := mkCompilerDeoptInfoRef {
  ref_deopt_id : Z;
  ref_reason : DeoptReasonId;
  ref_deopt_env : option EnvironmentPtr;
  ref_lazy_deopt_with_result : bool
}.

(** The info with its chain read through the pointer: the
    [CompilerDeoptInfo] that [CreateDeoptInfo] works on when the zone holds
    [environments]. *)
Definition deref (environments : list Environment)
                 (info : CompilerDeoptInfoRef) : CompilerDeoptInfo :=
  mkCompilerDeoptInfo
    (ref_deopt_id info) (ref_reason info)
    match ref_deopt_env info with
    | Some p => environments !! p
    | None => None
    end
    (ref_lazy_deopt_with_result info).

(** The members of [FlowGraphCompiler] that the functions of this file read
    or write.  [environments_] are the environments of the zone;
    [safepoints_] is the table [RecordSafepoint] fills. *)
Record FlowGraphCompiler : Type := mkFlowGraphCompiler {
  is_optimizing : bool;
  intrinsic_mode : bool;
  assembler : Assembler;
  environments_ : list Environment;
  pending_deoptimization_env_ : option EnvironmentPtr;
  deopt_infos_ : list CompilerDeoptInfoRef;
  pc_descriptors_ : list PcDescriptor;
  safepoints_ : list (Z * LocationSummary)
}.

Definition set_intrinsic_mode (v : bool) (c : FlowGraphCompiler)
  : FlowGraphCompiler :=
  mkFlowGraphCompiler (is_optimizing c) v (assembler c) (environments_ c)
    (pending_deoptimization_env_ c) (deopt_infos_ c) (pc_descriptors_ c)
    (safepoints_ c).
Definition set_assembler (v : Assembler) (c : FlowGraphCompiler)
  : FlowGraphCompiler :=
  mkFlowGraphCompiler (is_optimizing c) (intrinsic_mode c) v
    (environments_ c) (pending_deoptimization_env_ c) (deopt_infos_ c)
    (pc_descriptors_ c) (safepoints_ c).
Definition set_environments (v : list Environment) (c : FlowGraphCompiler)
  : FlowGraphCompiler :=
  mkFlowGraphCompiler (is_optimizing c) (intrinsic_mode c) (assembler c)
    v (pending_deoptimization_env_ c) (deopt_infos_ c) (pc_descriptors_ c)
    (safepoints_ c).
Definition set_deopt_infos (v : list CompilerDeoptInfoRef)
                           (c : FlowGraphCompiler) : FlowGraphCompiler :=
  mkFlowGraphCompiler (is_optimizing c) (intrinsic_mode c) (assembler c)
    (environments_ c) (pending_deoptimization_env_ c) v (pc_descriptors_ c)
    (safepoints_ c).
Definition set_pc_descriptors (v : list PcDescriptor) (c : FlowGraphCompiler)
  : FlowGraphCompiler :=
  mkFlowGraphCompiler (is_optimizing c) (intrinsic_mode c) (assembler c)
    (environments_ c) (pending_deoptimization_env_ c) (deopt_infos_ c) v
    (safepoints_ c).
Definition set_safepoints (v : list (Z * LocationSummary))
                          (c : FlowGraphCompiler) : FlowGraphCompiler :=
  mkFlowGraphCompiler (is_optimizing c) (intrinsic_mode c) (assembler c)
    (environments_ c) (pending_deoptimization_env_ c) (deopt_infos_ c)
    (pc_descriptors_ c) v.

(** [__ Op(...)]: hand one bytecode to the assembler of the compiler. *)
Definition emit (i : Bytecode) : M FlowGraphCompiler unit :=
  modify (fun c => set_assembler (assembler c ++ [i]) c).

(** [compiler_->Bailout(reason)] *)
Definition Bailout {A} (reason : string) : M FlowGraphCompiler A :=
  fun c => BailedOut reason c.

(** [FlowGraphCompiler::EnterIntrinsicMode] *)
Definition EnterIntrinsicMode : M FlowGraphCompiler unit :=
  let* c := get in
  ASSERT (negb (intrinsic_mode c)) >>
  modify (set_intrinsic_mode true).

(** [FlowGraphCompiler::ExitIntrinsicMode] *)
Definition ExitIntrinsicMode : M FlowGraphCompiler unit :=
  let* c := get in
  ASSERT (intrinsic_mode c) >>
  modify (set_intrinsic_mode false).

(** [mark_lazy_deopt_with_result] *)
Definition mark_lazy_deopt_with_result (info : CompilerDeoptInfoRef)
  : CompilerDeoptInfoRef :=
  mkCompilerDeoptInfoRef (ref_deopt_id info) (ref_reason info)
                         (ref_deopt_env info) true.

(** [env->DropArguments(argc)] through a pointer: the environment is
    truncated where it lies; a pointer that leads to no environment of the
    zone is not dereferenced. *)
Definition DropArguments_at (p : EnvironmentPtr) (argc : nat)
  : M FlowGraphCompiler unit :=
  fun c =>
    match environments_ c !! p with
    | Some _ =>
        Done tt (set_environments
                   (alter (DropArguments argc) p (environments_ c)) c)
    | None => AssertionFailed
    end.

(* ================================================================== *)
(** ** The functions of flow_graph_compiler_dbc.cc                     *)
(* ================================================================== *)

Section Dbc.

Local Open Scope Z_scope.

(** Constants and helpers that are declared outside
    flow_graph_compiler_dbc.cc and whose values do not matter for what is
    proved below. *)

(** [kWordSize] *)
Variable kWordSize : Z.
(** [FPREG], the base register of frame slots. *)
Variable FPREG : Register.
(** [compiler_frame_layout] *)
Variable compiler_frame_layout : FrameLayout.
(** [compiler->StackSize()] *)
Variable StackSize : FlowGraphCompiler -> Z.
(** [assembler()->CodeSize()], the current code offset. *)
Variable CodeSize : Assembler -> Z.
(** [AllocateIncomingParametersRecursive(env, &stack_height)], read for the
    stack height it leaves. *)
Variable AllocateIncomingParametersRecursive : Environment -> Z -> Z.
(** [builder->CreateDeoptInfo(deopt_table)], which packs what the builder
    holds into the table entry. *)
Variable DeoptInfoBuilder_CreateDeoptInfo :
  Array -> DeoptInfoBuilder -> RawTypedData * DeoptInfoBuilder.

(** [Location::StackSlot(index)]: a slot relative to the frame pointer. *)
Definition Location_StackSlot_fp (index : Z) : Location :=
  Location_StackSlot FPREG index.

(** [FlowGraphCompiler::SupportsUnboxedInt64] and its neighbours. *)
Definition SupportsUnboxedInt64 : bool := false.
Definition SupportsUnboxedSimd128 : bool := false.
Definition SupportsHardwareDivision : bool := true.
Definition CanConvertInt64ToDouble : bool := false.

(** The copy loops of [CreateDeoptInfo]:
    [for (intptr_t i = lo + n - 1; i >= lo; i--)
       builder->AddCopy(env->ValueAt(i), env->LocationAt(i), slot_ix++);]
    The result is the slot index after the loop. *)
Fixpoint AddCopies (env : Environment) (lo n : nat) (slot_ix : Z)
  : M DeoptInfoBuilder Z :=
  match n with
  | O => ret slot_ix
  | S n' =>
      let i := (lo + n')%nat in
      let* v := ValueAt env i in
      let* l := LocationAt env i in
      AddCopy (Some (value_id v)) l slot_ix >>
      AddCopies env lo n' (slot_ix + 1)
  end.

(** One round of the [while (current != NULL)] loop of [CreateDeoptInfo] and
    the rounds after it: [current] is the environment the round is for,
    [previous] the one inside it.  The result is the outermost environment
    and the slot index after the loop. *)
Fixpoint walk_outer (previous current : Environment) (slot_ix : Z)
  {struct current} : M DeoptInfoBuilder (Environment * Z) :=
  AddReturnAddress (function current) (ToDeoptAfter (deopt_id current))
                   slot_ix >>
  let slot_ix := (slot_ix + 1)%Z in
  AddPcMarker (function previous) slot_ix >>
  let slot_ix := (slot_ix + 1)%Z in
  AddConstant (Object_function (function previous)) slot_ix >>
  let slot_ix := (slot_ix + 1)%Z in
  let* slot_ix := AddCopies previous 0%nat (fixed_parameter_count previous)
                            slot_ix in
  let* slot_ix := AddCopies current (fixed_parameter_count current)
                            (Length current - fixed_parameter_count current)%nat
                            slot_ix in
  AddCallerFp slot_ix >>
  let slot_ix := (slot_ix + 1)%Z in
  match outer current with
  | None => ret (current, slot_ix)
  | Some next => walk_outer current next slot_ix
  end.

(** [CompilerDeoptInfo::CreateDeoptInfo(compiler, builder, deopt_table)] *)
Definition CreateDeoptInfo (info : CompilerDeoptInfo)
                           (compiler : FlowGraphCompiler)
                           (deopt_table : Array)
  : M DeoptInfoBuilder RawTypedData :=
  match deopt_env_ info with
  | None =>
      modify (fun b => mkDeoptInfoBuilder (instructions_ b)
                                          (materializations_ b)
                                          (current_info_number_ b + 1)) >>
      ret TypedData_null
  | Some deopt_env =>
      let stack_height := StackSize compiler in
      let stack_height :=
        AllocateIncomingParametersRecursive deopt_env stack_height in
      let slot_ix := 0%Z in
      let current := deopt_env in
      EmitMaterializations deopt_env >>
      MarkFrameStart >>
      AddCallerFp slot_ix >>
      let slot_ix := (slot_ix + 1)%Z in
      AddReturnAddress (function current) (info_deopt_id info) slot_ix >>
      let slot_ix := (slot_ix + 1)%Z in
      AddPcMarker Function_ZoneHandle slot_ix >>
      let slot_ix := (slot_ix + 1)%Z in
      AddConstant (Object_function Function_ZoneHandle) slot_ix >>
      let slot_ix := (slot_ix + 1)%Z in
      let* slot_ix := EmitMaterializationArguments slot_ix in
      let* slot_ix :=
        (if lazy_deopt_with_result_ info then
           ASSERT (DeoptReasonId_eqb (reason info) kDeoptAtCall) >>
           AddCopy None
                   (Location_StackSlot_fp
                      (FrameSlotForVariableIndex compiler_frame_layout
                                                 (- stack_height)))
                   slot_ix >>
           ret (slot_ix + 1)%Z
         else ret slot_ix) in
      let* slot_ix := AddCopies current (fixed_parameter_count current)
                                (Length current - fixed_parameter_count current)%nat
                                slot_ix in
      AddCallerFp slot_ix >>
      let slot_ix := (slot_ix + 1)%Z in
      let previous := current in
      let* walked :=
        match outer current with
        | None => ret (previous, slot_ix)
        | Some next => walk_outer previous next slot_ix
        end in
      let previous := fst walked in
      let slot_ix := snd walked in
      AddCallerPc slot_ix >>
      let slot_ix := (slot_ix + 1)%Z in
      AddPcMarker (function previous) slot_ix >>
      let slot_ix := (slot_ix + 1)%Z in
      AddConstant (Object_function (function previous)) slot_ix >>
      let slot_ix := (slot_ix + 1)%Z in
      let* slot_ix := AddCopies previous 0%nat (fixed_parameter_count previous)
                                slot_ix in
      fun b => let (data, b') := DeoptInfoBuilder_CreateDeoptInfo deopt_table b
               in Done data b'
  end.

(** Modelled from the spec: [FlowGraphCompiler::RecordSafepoint] (not in
    flow_graph_compiler_dbc.cc) "record[s] a safepoint for the call's location
    assignments", at the current code offset. *)
Definition RecordSafepoint (locs : LocationSummary)
  : M FlowGraphCompiler unit :=
  modify (fun c =>
            set_safepoints
              (safepoints_ c ++ [(CodeSize (assembler c), locs)]) c).

(** Modelled from the spec: [FlowGraphCompiler::AddCurrentDescriptor] (not in
    flow_graph_compiler_dbc.cc) "record[s] a ... descriptor ... at that code
    offset": one row [(code_offset, kind, source_position)] with its deopt
    id. *)
Definition AddCurrentDescriptor (kind : PcDescriptorKind) (deopt_id : Z)
                                (token_pos : TokenPosition)
  : M FlowGraphCompiler unit :=
  modify (fun c =>
            set_pc_descriptors
              (pc_descriptors_ c ++
               [mkPcDescriptor kind (CodeSize (assembler c)) deopt_id
                               token_pos]) c).

(** Modelled from the spec: [FlowGraphCompiler::AddDeoptIndexAtCall] (not in
    flow_graph_compiler_dbc.cc) "allocate[s]/attach[es] a CompilerDeoptInfo keyed
    by" the given deopt id; the info points to the pending environment
    chain, its reason is that of a deoptimization at a call, and it is not
    yet marked.  The pointer it returns is the position of the new info in
    [deopt_infos_]. *)
Definition AddDeoptIndexAtCall (deopt_id : Z) : M FlowGraphCompiler nat :=
  let* c := get in
  let info := mkCompilerDeoptInfoRef deopt_id kDeoptAtCall
                                     (pending_deoptimization_env_ c) false in
  modify (set_deopt_infos (deopt_infos_ c ++ [info])) >>
  ret (length (deopt_infos_ c)).

(** [FlowGraphCompiler::RecordAfterCallHelper];
    [pending_deoptimization_env_->DropArguments(argument_count)] changes the
    environment the pointer leads to, and a null pointer cannot be followed. *)
Definition RecordAfterCallHelper (token_pos : TokenPosition) (deopt_id : Z)
                                 (argument_count : nat) (result : CallResult)
                                 (locs : LocationSummary)
  : M FlowGraphCompiler unit :=
  RecordSafepoint locs >>
  let deopt_id_after := ToDeoptAfter deopt_id in
  let* c := get in
  if is_optimizing c then
    match pending_deoptimization_env_ c with
    | None => fail_assert
    | Some p => DropArguments_at p argument_count
    end >>
    let* info := AddDeoptIndexAtCall deopt_id_after in
    (if CallResult_eqb result kHasResult then
       modify (fun c =>
                 set_deopt_infos
                   (alter mark_lazy_deopt_with_result info (deopt_infos_ c)) c)
     else ret tt) >>
    AddCurrentDescriptor kOther deopt_id_after token_pos
  else
    AddCurrentDescriptor kDeopt deopt_id_after token_pos.

(** [FlowGraphCompiler::GenerateInlinedGetter]; [/] and [%] of C++ truncate
    towards zero. *)
Definition GenerateInlinedGetter (offset : Z) : M FlowGraphCompiler unit :=
  emit (Move 0 (- (1 + param_end_from_fp compiler_frame_layout))) >>
  ASSERT (Z.rem offset kWordSize =? 0)%Z >>
  (if IsInt 8 (Z.quot offset kWordSize) then
     emit (LoadField 0 0 (Z.quot offset kWordSize))
   else
     emit (LoadFieldExt 0 0) >>
     emit (Nop (Z.quot offset kWordSize))) >>
  emit (Return 0).

(** [FlowGraphCompiler::GenerateInlinedSetter] *)
Definition GenerateInlinedSetter (offset : Z) : M FlowGraphCompiler unit :=
  emit (Move 0 (- (2 + param_end_from_fp compiler_frame_layout))) >>
  emit (Move 1 (- (1 + param_end_from_fp compiler_frame_layout))) >>
  ASSERT (Z.rem offset kWordSize =? 0)%Z >>
  (if IsInt 8 (Z.quot offset kWordSize) then
     emit (StoreField 0 (Z.quot offset kWordSize) 1)
   else
     emit (StoreFieldExt 0 1) >>
     emit (Nop (Z.quot offset kWordSize))) >>
  emit (LoadConstant 0 Object_Handle) >>
  emit (Return 0).

(* ------------------------------------------------------------------ *)
(** *** The parallel move resolver                                     *)
(* ------------------------------------------------------------------ *)

(** Modelled from the spec: [MoveOperands] (not in
    flow_graph_compiler_dbc.cc): "(source: Location, destination: Location)
    plus an eliminated flag, mutable only in its source field". *)
Record MoveOperands : Type := mkMoveOperands {
  src : Location;
  dest : Location;
  eliminated : bool
}.

(** Modelled from the spec: [MoveOperands::Eliminate] "mark[s] it
    eliminated". *)
Definition Eliminate (m : MoveOperands) : MoveOperands :=
  mkMoveOperands (src m) (dest m) true.

Definition set_src (l : Location) (m : MoveOperands) : MoveOperands :=
  mkMoveOperands l (dest m) (eliminated m).

(** Modelled from the spec: [MoveOperands::Blocks(loc)] holds of a
    "still-pending operand whose source equals" [loc]. *)
Definition Blocks (m : MoveOperands) (loc : Location) : bool :=
  negb (eliminated m) && Location_Equals (src m) loc.

(** [ParallelMoveResolver]: the batch and the compiler it emits through. *)
Record ParallelMoveResolver : Type := mkParallelMoveResolver {
  moves_ : list MoveOperands;
  compiler_ : FlowGraphCompiler
}.

(** A call on [compiler_]. *)
Definition on_compiler {A} (m : M FlowGraphCompiler A)
  : M ParallelMoveResolver A :=
  fun r =>
    match m (compiler_ r) with
    | Done a c => Done a (mkParallelMoveResolver (moves_ r) c)
    | AssertionFailed => AssertionFailed
    | BailedOut reason c =>
        BailedOut reason (mkParallelMoveResolver (moves_ r) c)
    end.

(** [moves_[index]], read; the array asserts that the index is in range. *)
Definition move_at (index : nat) : M ParallelMoveResolver MoveOperands :=
  fun r =>
    match moves_ r !! index with
    | Some m => Done m r
    | None => AssertionFailed
    end.

(** An update of the operand that [moves_[index]] points to. *)
Definition update_move (index : nat) (f : MoveOperands -> MoveOperands)
  : M ParallelMoveResolver unit :=
  modify (fun r => mkParallelMoveResolver (alter f index (moves_ r))
                                          (compiler_ r)).

(** [ParallelMoveResolver::EmitMove] *)
Definition EmitMove (index : nat) : M ParallelMoveResolver unit :=
  let* move := move_at index in
  let source := src move in
  let destination := dest move in
  (if IsStackSlot source && IsRegister destination then
     let* base := base_reg source in
     ASSERT (base =? FPREG)%Z >>
     let* index_in_frame := stack_index source in
     ASSERT (index_in_frame >? param_end_from_fp compiler_frame_layout)%Z >>
     let* rd := reg destination in
     on_compiler (emit (Move rd (- index_in_frame)))
   else if IsRegister source && IsRegister destination then
     let* rd := reg destination in
     let* rs := reg source in
     on_compiler (emit (Move rd rs))
   else if IsArgsDescRegister source then
     ASSERT (IsRegister destination) >>
     let* rd := reg destination in
     on_compiler (emit (LoadArgDescriptorOpt rd))
   else if IsExceptionRegister source then
     ASSERT (IsRegister destination) >>
     let* rd := reg destination in
     on_compiler (emit (MoveSpecial rd kExceptionSpecialIndex))
   else if IsStackTraceRegister source then
     ASSERT (IsRegister destination) >>
     let* rd := reg destination in
     on_compiler (emit (MoveSpecial rd kStackTraceSpecialIndex))
   else if IsConstant source && IsRegister destination then
     let* instr := constant_instruction source in
     if Representation_eqb (representation instr) kUnboxedDouble then
       let* result := reg destination in
       let* constant := constant source in
       let* bits := Double_Cast_value constant in
       if DoublesBitEqual bits positive_zero_bits then
         on_compiler (emit (BitXor result result result))
       else
         on_compiler (emit (LoadConstant result constant)) >>
         on_compiler (emit (UnboxDouble result result))
     else
       let* rd := reg destination in
       let* constant := constant source in
       on_compiler (emit (LoadConstant rd constant))
   else
     on_compiler (Bailout "Unsupported move")) >>
  update_move index Eliminate.

(** The loop at the end of [EmitSwap], from [i] for [n] rounds:
    [for (; i < moves_.length(); ++i) ...]. *)
Fixpoint fix_sources (source destination : Location) (n i : nat)
  : M ParallelMoveResolver unit :=
  match n with
  | O => ret tt
  | S n' =>
      let* other_move := move_at i in
      (if Blocks other_move source then
         update_move i (set_src destination)
       else if Blocks other_move destination then
         update_move i (set_src source)
       else ret tt) >>
      fix_sources source destination n' (S i)
  end.

(** [ParallelMoveResolver::EmitSwap] *)
Definition EmitSwap (index : nat) : M ParallelMoveResolver unit :=
  let* move := move_at index in
  let source := src move in
  let destination := dest move in
  ASSERT (IsRegister source && IsRegister destination) >>
  let* rd := reg destination in
  let* rs := reg source in
  on_compiler (emit (Swap rd rs)) >>
  update_move index Eliminate >>
  let* r := get in
  fix_sources source destination (length (moves_ r)) 0%nat.

(* ================================================================== *)
(** ** What the statements are about                                 *)
(* ================================================================== *)

(** What a successful [EmitMove] leaves: the code it appended and the
    operand eliminated. *)
Definition after_move (r : ParallelMoveResolver) (index : nat)
                      (code : list Bytecode) : ParallelMoveResolver :=
  mkParallelMoveResolver
    (alter Eliminate index (moves_ r))
    (set_assembler (assembler (compiler_ r) ++ code) (compiler_ r)).

(** The shapes listed as supported: a stack slot of the argument
    region (relative to [FPREG], above [param_end_from_fp]) to a register, a
    register to a register, a pseudo-register to a register and a constant to
    a register. *)
Definition listed_as_supported (move : MoveOperands) : bool :=
  match src move, dest move with
  | Location_StackSlot base index, Location_Register _ =>
      (base =? FPREG) && (index >? param_end_from_fp compiler_frame_layout)
  | Location_Register _, Location_Register _
  | Location_ArgsDescRegister, Location_Register _
  | Location_ExceptionRegister, Location_Register _
  | Location_StackTraceRegister, Location_Register _
  | Location_Constant _, Location_Register _ => true
  | _, _ => false
  end.

(** The sources that are one of the three pseudo-registers. *)
Definition IsPseudoRegister (l : Location) : bool :=
  IsArgsDescRegister l || IsExceptionRegister l || IsStackTraceRegister l.

(** What one round of the loop of [EmitSwap] makes of an operand. *)
Definition rewritten (source destination : Location) (other : MoveOperands)
  : MoveOperands :=
  if Blocks other source then set_src destination other
  else if Blocks other destination then set_src source other
  else other.

(** The descriptor that [AddCopy] puts down for a slot of an environment. *)
Definition copy_of (slot : Value * Location) : SlotDescriptor :=
  Copy (Some (value_id (fst slot))) (snd slot).

(** Descriptors at consecutive slot indices, from [ix] on. *)
Fixpoint numbered (ix : Z) (ds : list SlotDescriptor) : list DeoptInstr :=
  match ds with
  | [] => []
  | d :: rest => Slot ix d :: numbered (ix + 1) rest
  end.

Definition append_instructions (l : list DeoptInstr) (b : DeoptInfoBuilder)
  : DeoptInfoBuilder :=
  mkDeoptInfoBuilder (instructions_ b ++ l) (materializations_ b)
                     (current_info_number_ b).

(** The slots [Length - 1] down to [fixed_parameter_count] of an
    environment, and the slots [fixed_parameter_count - 1] down to [0]. *)
Definition locals_descending (env : Environment) : list SlotDescriptor :=
  map copy_of (rev (drop (fixed_parameter_count env) (values_ env))).
Definition parameters_descending (env : Environment) : list SlotDescriptor :=
  map copy_of (rev (take (fixed_parameter_count env) (values_ env))).

Definition input_copy (input : ValueId * Location) : SlotDescriptor :=
  Copy (Some (fst input)) (snd input).

(** The copies of the source values of the given materializations. *)
Definition materialization_arguments (mats : list MaterializeObjectInstr)
  : list SlotDescriptor :=
  flat_map (fun mat => map input_copy (mat_inputs mat)) mats.

(** The descriptors of the frames outside the innermost one. *)
Fixpoint outer_frames (previous current : Environment)
  : list SlotDescriptor :=
  [ReturnAddress (function current) (deopt_id current + 1);
   PcMarker (function previous);
   Constant (Object_function (function previous))]
  ++ parameters_descending previous
  ++ locals_descending current
  ++ [CallerFp]
  ++ match outer current with
     | None => []
     | Some next => outer_frames current next
     end.

Fixpoint outermost (env : Environment) : Environment :=
  match outer env with
  | None => env
  | Some next => outermost next
  end.

(** The invariant of environments, [length >= fixed_parameter_count], along
    a chain. *)
Fixpoint well_formed (env : Environment) : bool :=
  (fixed_parameter_count env <=? Length env)%nat
  && match outer env with
     | None => true
     | Some next => well_formed next
     end.

(** Induction along a chain of environments, from the outermost inwards. *)
Fixpoint chain_ind (P : Environment -> Prop)
    (Hlast : forall env, outer env = None -> P env)
    (Hstep : forall env next, outer env = Some next -> P next -> P env)
    (env : Environment) {struct env} : P env :=
  match env as e return P e with
  | mkEnvironment vs n f d None =>
      Hlast (mkEnvironment vs n f d None) eq_refl
  | mkEnvironment vs n f d (Some next) =>
      Hstep (mkEnvironment vs n f d (Some next)) next eq_refl
            (chain_ind P Hlast Hstep next)
  end.

(** The extra copy of a lazy deoptimization that continues after a call
    with a result. *)
Definition lazy_result_copy (info : CompilerDeoptInfo)
                            (compiler : FlowGraphCompiler)
                            (env : Environment) : list SlotDescriptor :=
  if lazy_deopt_with_result_ info then
    [Copy None
          (Location_StackSlot_fp
             (FrameSlotForVariableIndex compiler_frame_layout
                (- AllocateIncomingParametersRecursive env
                     (StackSize compiler))))]
  else [].

(** What follows the materialization arguments in the innermost frame, and
    the frames outside it up to the last [CallerFp]. *)
Definition frames_after_arguments (info : CompilerDeoptInfo)
                                  (compiler : FlowGraphCompiler)
                                  (env : Environment) : list SlotDescriptor :=
  lazy_result_copy info compiler env
  ++ locals_descending env
  ++ [CallerFp]
  ++ match outer env with
     | None => []
     | Some next => outer_frames env next
     end.

(** The end of every entry: the caller pc, the pc marker and constant of the
    outermost function and its incoming parameters. *)
Definition outermost_tail (env : Environment) : list SlotDescriptor :=
  [CallerPc;
   PcMarker (function (outermost env));
   Constant (Object_function (function (outermost env)))]
  ++ parameters_descending (outermost env).

(** All slot descriptors of an entry, in order; [mats] are the
    materializations the builder holds when the arguments are emitted. *)
Definition frame_descriptors (info : CompilerDeoptInfo)
                             (compiler : FlowGraphCompiler)
                             (env : Environment)
                             (mats : list MaterializeObjectInstr)
  : list SlotDescriptor :=
  [CallerFp;
   ReturnAddress (function env) (info_deopt_id info);
   PcMarker Function_null;
   Constant (Object_function Function_null)]
  ++ materialization_arguments mats
  ++ frames_after_arguments info compiler env
  ++ outermost_tail env.

(** The builder as [CreateDeoptInfo] hands it to the packing step. *)
Definition built (info : CompilerDeoptInfo) (compiler : FlowGraphCompiler)
                 (env : Environment) (b : DeoptInfoBuilder)
  : DeoptInfoBuilder :=
  mkDeoptInfoBuilder
    (instructions_ b
     ++ map MaterializeObject (flagged_in_chain env)
     ++ FrameStart
        :: numbered 0 (frame_descriptors info compiler env
                         (materializations_ b ++ flagged_in_chain env)))
    (materializations_ b ++ flagged_in_chain env)
    (current_info_number_ b).

(** The result of the packing step on a builder. *)
Definition packed (deopt_table : Array) (b : DeoptInfoBuilder)
  : Outcome DeoptInfoBuilder RawTypedData :=
  let (data, b') := DeoptInfoBuilder_CreateDeoptInfo deopt_table b in
  Done data b'.

(** The conditions under which [CreateDeoptInfo] runs to its end on a
    chain: the environments satisfy their invariant and a lazy
    deoptimization with result is one at a call. *)
Definition runs_through (info : CompilerDeoptInfo) (env : Environment)
  : Prop :=
  deopt_env_ info = Some env
  /\ well_formed env = true
  /\ (lazy_deopt_with_result_ info = true -> reason info = kDeoptAtCall).

(** The events before the first frame-start marker. *)
Fixpoint before_frame_start (instrs : list DeoptInstr) : list DeoptInstr :=
  match instrs with
  | [] => []
  | FrameStart :: _ => []
  | i :: rest => i :: before_frame_start rest
  end.

(** C1 as the specification words it: every materialization descriptor of the
    chain, and with it the copies of its source values, is emitted before
    the frame-start marker. *)
Definition materializations_and_copies_before_frame_start
    (env : Environment) (instrs : list DeoptInstr) : Prop :=
  forall mat, In mat (flagged_in_chain env) ->
    In (MaterializeObject mat) (before_frame_start instrs)
    /\ forall input, In input (mat_inputs mat) ->
         exists ix, In (Slot ix (input_copy input)) (before_frame_start instrs).

(** C2 as the specification words it: the innermost frame header is a
    caller-frame-pointer slot, a return-address slot with the function of the
    innermost frame and the deopt id, a pc-marker slot that references a
    function identity (that of the caller), and a constant slot. *)
Definition header_names_caller_function
    (inner : Function) (id : Z) (instrs : list DeoptInstr) : Prop :=
  exists before caller placeholder rest,
    instrs
    = before
      ++ FrameStart
         :: Slot 0 CallerFp
         :: Slot 1 (ReturnAddress inner id)
         :: Slot 2 (PcMarker (Function_ref caller))
         :: Slot 3 (Constant placeholder)
         :: rest.

(** C4 as the specification words it: the operand at [index], when its shape is
    not listed as supported, makes [EmitMove] bail out with nothing
    emitted. *)
Definition unlisted_move_bails_out (r : ParallelMoveResolver) (index : nat)
  : Prop :=
  forall move,
    moves_ r !! index = Some move ->
    listed_as_supported move = false ->
    EmitMove index r = BailedOut "Unsupported move" r.


(* ------------------------------------------------------------------ *)
(** *** Further functions of the file                                 *)
(* ------------------------------------------------------------------ *)

(** Modelled from the spec: [Utils::IsUint(N, value)] (vm/utils.h is not in
    flow_graph_compiler_dbc.cc): the value fits an unsigned immediate of [N]
    bits. *)
Definition IsUint (N : Z) (v : Z) : bool := (0 <=? v) && (v <? 2 ^ N).

(** An instruction, as far as [ToEmbeddableCid] uses it: the text that
    [Instruction::Unsupported] reports. *)
Record Instruction : Type := mkInstruction {
  ToCString : string
}.

(** Modelled from the spec: [Instruction::Unsupported(compiler)] (the IL is
    not in flow_graph_compiler_dbc.cc): an "unsupported operation" is "a
    Bailout". *)
Definition Unsupported {A} (instruction : Instruction)
  : M FlowGraphCompiler A :=
  Bailout (ToCString instruction).

(** [FlowGraphCompiler::ToEmbeddableCid]; [static_cast<uint16_t>] keeps the
    low 16 bits. *)
Definition ToEmbeddableCid (cid : Z) (instruction : Instruction)
  : M FlowGraphCompiler Z :=
  (if negb (IsUint 16 cid) then Unsupported instruction else ret tt) >>
  ret (cid mod 2 ^ 16).

(* ------------------------------------------------------------------ *)
(** *** Counting and collecting slot descriptors                      *)
(* ------------------------------------------------------------------ *)

Definition is_CallerFp (d : SlotDescriptor) : bool :=
  match d with CallerFp => true | _ => false end.
Definition is_CallerPc (d : SlotDescriptor) : bool :=
  match d with CallerPc => true | _ => false end.
Definition is_ReturnAddress (d : SlotDescriptor) : bool :=
  match d with ReturnAddress _ _ => true | _ => false end.
Definition is_PcMarker (d : SlotDescriptor) : bool :=
  match d with PcMarker _ => true | _ => false end.
Definition is_Copy (d : SlotDescriptor) : bool :=
  match d with Copy _ _ => true | _ => false end.

(** How many descriptors satisfy [p]. *)
Fixpoint count (p : SlotDescriptor -> bool) (ds : list SlotDescriptor)
  : nat :=
  match ds with
  | [] => 0%nat
  | d :: rest => ((if p d then 1 else 0) + count p rest)%nat
  end.

(** The [Copy] descriptors, in order. *)
Fixpoint copies (ds : list SlotDescriptor) : list SlotDescriptor :=
  match ds with
  | [] => []
  | d :: rest => if is_Copy d then d :: copies rest else copies rest
  end.

(** The number of frames of a chain. *)
Fixpoint depth (env : Environment) : nat :=
  S match outer env with
    | None => 0
    | Some next => depth next
    end.

(** The slots of all frames of a chain: every value and four more per
    frame. *)
Fixpoint frame_slots (env : Environment) : nat :=
  (Length env + 4
   + match outer env with
     | None => 0
     | Some next => frame_slots next
     end)%nat.

(** The copies of all slots of all environments of a chain. *)
Fixpoint chain_copies (env : Environment) : list SlotDescriptor :=
  map copy_of (values_ env)
  ++ match outer env with
     | None => []
     | Some next => chain_copies next
     end.


(** A constant whose representation is [kUnboxedDouble] holds a [Double]. *)
Definition unboxed_constant_is_double (l : Location) : bool :=
  match l with
  | Location_Constant c =>
      if Representation_eqb (representation c) kUnboxedDouble then
        match value c with Object_double _ => true | _ => false end
      else true
  | _ => true
  end.

(** [inner] and [caller] are neighbours in the chain that starts at [env]:
    [caller] is the environment that [inner] was inlined into. *)
Inductive neighbours : Environment -> Environment -> Environment -> Prop :=
| neighbours_here (env next : Environment) :
    outer env = Some next -> neighbours env env next
| neighbours_outer (env next inner caller : Environment) :
    outer env = Some next ->
    neighbours next inner caller ->
    neighbours env inner caller.

(** A descriptor that is not a copy without a value. *)
Definition has_value (d : SlotDescriptor) : bool :=
  match d with Copy None _ => false | _ => true end.


(* ------------------------------------------------------------------ *)
(** *** Example inputs                                              *)
(* ------------------------------------------------------------------ *)

(** A target: 8-byte words, frame slots that mirror the variable index. *)
Definition example_kWordSize : Z := 8.
Definition example_FPREG : Register := 255.
Definition example_layout : FrameLayout := mkFrameLayout 4 (fun i => - i).
Definition example_StackSize (c : FlowGraphCompiler) : Z := 2.
Definition example_CodeSize (a : Assembler) : Z := 4 * Z.of_nat (length a).
Definition example_Allocate (env : Environment) (h : Z) : Z := h.
Definition example_pack (deopt_table : Array) (b : DeoptInfoBuilder)
  : RawTypedData * DeoptInfoBuilder :=
  (TypedData_packed (instructions_ b),
   mkDeoptInfoBuilder [] [] (current_info_number_ b + 1)).

(** A function 1 inlined into a function 2; value 2 of the inner frame is an
    object to materialize from value 7, which lives in register 3. *)
Definition example_mat : MaterializeObjectInstr :=
  mkMaterializeObject 0%nat [(7%nat, Location_Register 3)].
Definition example_outer : Environment :=
  mkEnvironment [(mkValue 10%nat None, Location_Register 0);
                 (mkValue 11%nat None, Location_Register 1)]
                1%nat (Function_ref 2%nat) 20 None.
Definition example_inner : Environment :=
  mkEnvironment [(mkValue 1%nat None, Location_StackSlot example_FPREG 5);
                 (mkValue 2%nat (Some example_mat), Location_Register 2)]
                1%nat (Function_ref 1%nat) 30 (Some example_outer).
Definition example_info : CompilerDeoptInfo :=
  mkCompilerDeoptInfo 41 kDeoptAtCall (Some example_inner) true.
Definition example_null_info : CompilerDeoptInfo :=
  mkCompilerDeoptInfo 43 kDeoptAtCall None false.
Definition example_compiler : FlowGraphCompiler :=
  mkFlowGraphCompiler true false [Move 0 1] [example_outer; example_inner]
                      (Some 1%nat) [] [] [].
Definition example_builder : DeoptInfoBuilder := mkDeoptInfoBuilder [] [] 0.

(** The entry of [example_info]. *)
Definition example_entry : list DeoptInstr :=
  [MaterializeObject example_mat;
   FrameStart;
   Slot 0 CallerFp;
   Slot 1 (ReturnAddress (Function_ref 1%nat) 41);
   Slot 2 (PcMarker Function_null);
   Slot 3 (Constant (Object_function Function_null));
   Slot 4 (Copy (Some 7%nat) (Location_Register 3));
   Slot 5 (Copy None (Location_StackSlot example_FPREG 2));
   Slot 6 (Copy (Some 2%nat) (Location_Register 2));
   Slot 7 CallerFp;
   Slot 8 (ReturnAddress (Function_ref 2%nat) 21);
   Slot 9 (PcMarker (Function_ref 1%nat));
   Slot 10 (Constant (Object_function (Function_ref 1%nat)));
   Slot 11 (Copy (Some 1%nat) (Location_StackSlot example_FPREG 5));
   Slot 12 (Copy (Some 11%nat) (Location_Register 1));
   Slot 13 CallerFp;
   Slot 14 CallerPc;
   Slot 15 (PcMarker (Function_ref 2%nat));
   Slot 16 (Constant (Object_function (Function_ref 2%nat)));
   Slot 17 (Copy (Some 10%nat) (Location_Register 0))].

Definition example_locs : LocationSummary :=
  mkLocationSummary [Location_Register 0] [Location_Register 0].

(** Batches for the move emitters. *)
Definition example_resolver (moves : list MoveOperands)
  : ParallelMoveResolver :=
  mkParallelMoveResolver moves example_compiler.
Definition example_double (bits : Z) : Location :=
  Location_Constant (mkConstantInstr (Object_double bits) kUnboxedDouble).

(* ================================================================== *)
(** ** Results                                                         *)
(* ================================================================== *)

(** *** Running computations *)

Lemma bind_Done {S A B} (m : M S A) (k : A -> M S B) (s s' : S) (a : A) :
  m s = Done a s' -> bind m k s = k a s'.
Proof. intros H. unfold bind. now rewrite H. Qed.

Lemma bind_AssertionFailed {S A B} (m : M S A) (k : A -> M S B) (s : S) :
  m s = AssertionFailed -> bind m k s = AssertionFailed.
Proof. intros H. unfold bind. now rewrite H. Qed.

Lemma bind_BailedOut {S A B} (m : M S A) (k : A -> M S B) (s s' : S) msg :
  m s = BailedOut msg s' -> bind m k s = BailedOut msg s'.
Proof. intros H. unfold bind. now rewrite H. Qed.

Lemma IsInt_8_bounds (v : Z) : IsInt 8 v = true <-> -128 <= v <= 127.
Proof.
  unfold IsInt. change (2 ^ (8 - 1)) with 128.
  rewrite andb_true_iff, Z.leb_le, Z.ltb_lt. lia.
Qed.

(** *** The absent environment chain *)

(** C8: with an absent (null) environment chain [CreateDeoptInfo] returns
    the null table entry; it ends normally, in no failed assertion and no
    bailout, and puts no descriptor into the builder. *)
Theorem CreateDeoptInfo_absent_chain_returns_null
    (info : CompilerDeoptInfo) (compiler : FlowGraphCompiler)
    (deopt_table : Array) (builder : DeoptInfoBuilder) :
  deopt_env_ info = None ->
  exists builder',
    CreateDeoptInfo info compiler deopt_table builder
      = Done TypedData_null builder'
    /\ instructions_ builder' = instructions_ builder.
Proof.
  intros Hnull. unfold CreateDeoptInfo. rewrite Hnull.
  eexists. split; reflexivity.
Qed.

(** C10: with an absent (null) environment chain [CreateDeoptInfo] adds
    exactly one to [current_info_number_] of the builder and leaves its slot
    descriptors and its materialization descriptors as they were. *)
Theorem CreateDeoptInfo_absent_chain_counts_entry
    (info : CompilerDeoptInfo) (compiler : FlowGraphCompiler)
    (deopt_table : Array) (builder : DeoptInfoBuilder) :
  deopt_env_ info = None ->
  exists data,
    CreateDeoptInfo info compiler deopt_table builder
      = Done data
             (mkDeoptInfoBuilder (instructions_ builder)
                                 (materializations_ builder)
                                 (current_info_number_ builder + 1)).
Proof.
  intros Hnull. unfold CreateDeoptInfo. rewrite Hnull.
  now exists TypedData_null.
Qed.

(** *** Trivial accessors *)

(** Both accessors, run on an aligned offset, by cases on the offset in
    words. *)
Lemma inlined_accessors_run
    (offset : Z) (c : FlowGraphCompiler) :
  Z.rem offset kWordSize = 0 ->
  let words := Z.quot offset kWordSize in
  let param_end := param_end_from_fp compiler_frame_layout in
  (-128 <= words <= 127 ->
     GenerateInlinedGetter offset c
       = Done tt (set_assembler
                    (assembler c ++
                     [Move 0 (- (1 + param_end)); LoadField 0 0 words;
                      Return 0]) c)
     /\ GenerateInlinedSetter offset c
       = Done tt (set_assembler
                    (assembler c ++
                     [Move 0 (- (2 + param_end)); Move 1 (- (1 + param_end));
                      StoreField 0 words 1; LoadConstant 0 Object_null;
                      Return 0]) c))
  /\ (words < -128 \/ 127 < words ->
     GenerateInlinedGetter offset c
       = Done tt (set_assembler
                    (assembler c ++
                     [Move 0 (- (1 + param_end)); LoadFieldExt 0 0; Nop words;
                      Return 0]) c)
     /\ GenerateInlinedSetter offset c
       = Done tt (set_assembler
                    (assembler c ++
                     [Move 0 (- (2 + param_end)); Move 1 (- (1 + param_end));
                      StoreFieldExt 0 1; Nop words;
                      LoadConstant 0 Object_null; Return 0]) c)).
Proof.
  intros Haligned words param_end.
  apply Z.eqb_eq in Haligned.
  split; intros Hrange.
  - apply IsInt_8_bounds in Hrange. fold words in Hrange.
    unfold GenerateInlinedGetter, GenerateInlinedSetter, bind, ASSERT, emit,
      modify. simpl.
    rewrite Haligned. fold words. rewrite Hrange. simpl.
    unfold set_assembler; simpl.
    rewrite <- !app_assoc. simpl. split; reflexivity.
  - assert (Hno : IsInt 8 words = false).
    { destruct (IsInt 8 words) eqn:E; [|reflexivity].
      apply IsInt_8_bounds in E. lia. }
    unfold GenerateInlinedGetter, GenerateInlinedSetter, bind, ASSERT, emit,
      modify. simpl.
    rewrite Haligned. fold words. rewrite Hno. simpl.
    unfold set_assembler; simpl.
    rewrite <- !app_assoc. simpl. split; reflexivity.
Qed.

(** C9: a trivial getter loads the receiver from its parameter slot, a
    trivial setter the receiver and the stored value; then, when the offset in
    words fits a signed 8-bit immediate, the compact [LoadField] /
    [StoreField] follows, and otherwise the two-instruction form
    [LoadFieldExt] / [StoreFieldExt] with a [Nop] that carries the offset in
    words.  The statement is on the code of the compiler after the emitter
    has returned. *)
Theorem inlined_accessors_compact_or_extended
    (offset : Z) (c : FlowGraphCompiler) :
  Z.rem offset kWordSize = 0 ->
  let words := Z.quot offset kWordSize in
  let param_end := param_end_from_fp compiler_frame_layout in
  exists getter setter,
    GenerateInlinedGetter offset c = Done tt getter
    /\ GenerateInlinedSetter offset c = Done tt setter
    /\ (-128 <= words <= 127 ->
        assembler getter
        = assembler c ++
          [Move 0 (- (1 + param_end)); LoadField 0 0 words; Return 0]
        /\ assembler setter
           = assembler c ++
             [Move 0 (- (2 + param_end)); Move 1 (- (1 + param_end));
              StoreField 0 words 1; LoadConstant 0 Object_null; Return 0])
    /\ (words < -128 \/ 127 < words ->
        assembler getter
        = assembler c ++
          [Move 0 (- (1 + param_end)); LoadFieldExt 0 0; Nop words; Return 0]
        /\ assembler setter
           = assembler c ++
             [Move 0 (- (2 + param_end)); Move 1 (- (1 + param_end));
              StoreFieldExt 0 1; Nop words; LoadConstant 0 Object_null;
              Return 0]).
Proof.
  intros Haligned words param_end.
  destruct (inlined_accessors_run offset c Haligned) as [Hcompact Hextended].
  fold words param_end in Hcompact, Hextended.
  destruct (Z_le_dec (-128) words) as [Hlow|Hlow];
    [destruct (Z_le_dec words 127) as [Hhigh|Hhigh]|].
  - destruct (Hcompact (conj Hlow Hhigh)) as [Hgetter Hsetter].
    eexists _, _. split; [exact Hgetter|]. split; [exact Hsetter|].
    split; [intros _; split; reflexivity | lia].
  - destruct Hextended as [Hgetter Hsetter]; [lia|].
    eexists _, _. split; [exact Hgetter|]. split; [exact Hsetter|].
    split; [lia | intros _; split; reflexivity].
  - destruct Hextended as [Hgetter Hsetter]; [lia|].
    eexists _, _. split; [exact Hgetter|]. split; [exact Hsetter|].
    split; [lia | intros _; split; reflexivity].
Qed.

(** *** Recording a call *)

Lemma alter_last {A} (f : A -> A) (l : list A) (x : A) :
  alter f (length l) (l ++ [x]) = l ++ [f x].
Proof.
  replace (length l) with (length l + 0)%nat by lia.
  now rewrite alter_app_r.
Qed.

Lemma DropArguments_Length (argc : nat) (env : Environment) :
  Length (DropArguments argc env) = (Length env - argc)%nat.
Proof.
  unfold Length, DropArguments. cbn [values_].
  rewrite length_take. apply Nat.min_l. lia.
Qed.

Lemma deref_dropped (argc : nat) (p : EnvironmentPtr) (env : Environment)
                    (environments : list Environment)
                    (info : CompilerDeoptInfoRef) :
  environments !! p = Some env ->
  ref_deopt_env info = Some p ->
  deopt_env_ (deref (alter (DropArguments argc) p environments) info)
    = Some (DropArguments argc env).
Proof.
  intros Henv Hp. unfold deref. cbn [deopt_env_]. rewrite Hp.
  rewrite list_lookup_alter_eq, Henv. reflexivity.
Qed.

Lemma deref_elsewhere (argc : nat) (p : EnvironmentPtr)
                      (environments : list Environment)
                      (info : CompilerDeoptInfoRef) :
  ref_deopt_env info <> Some p ->
  deref (alter (DropArguments argc) p environments) info
    = deref environments info.
Proof.
  intros Hq. unfold deref.
  destruct (ref_deopt_env info) as [q'|]; [|reflexivity].
  rewrite list_lookup_alter_ne; [reflexivity|]. congruence.
Qed.

(** C3: [RecordAfterCallHelper] records a safepoint for [locs] in both
    modes.  When optimizing it drops [argument_count] slots from the pending
    deoptimization environment, where that environment lies: the pending
    pointer stays, and every info that points to this environment, the ones
    attached by earlier calls included, sees it shortened, while the infos
    that point elsewhere see what they saw.  It attaches a
    [CompilerDeoptInfo] for [deopt_id + 1] that points to this environment
    and is marked [lazy_deopt_with_result] exactly when the call has a
    result, and records a descriptor of kind [kOther] for that id at the
    current offset.  In baseline mode it records a descriptor of kind
    [kDeopt], attaches no info and leaves the environments alone. *)
Theorem RecordAfterCallHelper_bookkeeping
    (token_pos : TokenPosition) (deopt_id : Z) (argument_count : nat)
    (result : CallResult) (locs : LocationSummary) (c : FlowGraphCompiler) :
  (is_optimizing c = true ->
   exists p, pending_deoptimization_env_ c = Some p
             /\ is_Some (environments_ c !! p)) ->
  let pc := CodeSize (assembler c) in
  let deopt_id_after := deopt_id + 1 in
  exists c',
    RecordAfterCallHelper token_pos deopt_id argument_count result locs c
      = Done tt c'
    /\ safepoints_ c' = safepoints_ c ++ [(pc, locs)]
    /\ assembler c' = assembler c
    /\ is_optimizing c' = is_optimizing c
    /\ if is_optimizing c then
         exists p env info,
           pending_deoptimization_env_ c = Some p
           /\ environments_ c !! p = Some env
           /\ pending_deoptimization_env_ c' = Some p
           /\ environments_ c'
              = alter (DropArguments argument_count) p (environments_ c)
           /\ environments_ c' !! p = Some (DropArguments argument_count env)
           /\ Length (DropArguments argument_count env)
              = (Length env - argument_count)%nat
           /\ deopt_infos_ c' = deopt_infos_ c ++ [info]
           /\ ref_deopt_id info = deopt_id_after
           /\ ref_reason info = kDeoptAtCall
           /\ ref_deopt_env info = Some p
           /\ (ref_lazy_deopt_with_result info = true <-> result = kHasResult)
           /\ (forall held,
                 In held (deopt_infos_ c') -> ref_deopt_env held = Some p ->
                 deopt_env_ (deref (environments_ c') held)
                   = Some (DropArguments argument_count env))
           /\ (forall held,
                 In held (deopt_infos_ c') -> ref_deopt_env held <> Some p ->
                 deref (environments_ c') held
                   = deref (environments_ c) held)
           /\ pc_descriptors_ c'
              = pc_descriptors_ c ++
                [mkPcDescriptor kOther pc deopt_id_after token_pos]
       else
         environments_ c' = environments_ c
         /\ pending_deoptimization_env_ c' = pending_deoptimization_env_ c
         /\ deopt_infos_ c' = deopt_infos_ c
         /\ pc_descriptors_ c'
            = pc_descriptors_ c ++
              [mkPcDescriptor kDeopt pc deopt_id_after token_pos].
Proof.
  intros Hpending pc deopt_id_after.
  unfold RecordAfterCallHelper, RecordSafepoint, AddCurrentDescriptor,
    AddDeoptIndexAtCall, DropArguments_at, ToDeoptAfter, bind, modify, get,
    ret.
  cbn [set_safepoints is_optimizing pending_deoptimization_env_
       environments_].
  destruct (is_optimizing c) eqn:Hopt.
  - destruct Hpending as (p & Hp & [env Henv]); [reflexivity|].
    rewrite Hp. cbn [set_safepoints environments_]. rewrite Henv.
    assert (Hat : alter (DropArguments argument_count) p (environments_ c)
                    !! p = Some (DropArguments argument_count env))
      by now rewrite list_lookup_alter_eq, Henv.
    destruct result; simpl.
    + eexists; split; [reflexivity|]. simpl.
      rewrite alter_last.
      split; [reflexivity|]. split; [reflexivity|]. split; [exact Hopt|].
      exists p, env. eexists.
      split; [reflexivity|]. split; [exact Henv|]. split; [exact Hp|].
      split; [reflexivity|]. split; [exact Hat|].
      split; [apply DropArguments_Length|].
      split; [reflexivity|]. split; [reflexivity|]. split; [reflexivity|].
      split; [exact Hp|]. split; [now split|].
      split; [intros held _ Hheld; now apply deref_dropped|].
      split; [intros held _ Hheld; now apply deref_elsewhere|].
      reflexivity.
    + eexists; split; [reflexivity|]. simpl.
      split; [reflexivity|]. split; [reflexivity|]. split; [exact Hopt|].
      exists p, env. eexists.
      split; [reflexivity|]. split; [exact Henv|]. split; [exact Hp|].
      split; [reflexivity|]. split; [exact Hat|].
      split; [apply DropArguments_Length|].
      split; [reflexivity|]. split; [reflexivity|]. split; [reflexivity|].
      split; [exact Hp|]. split; [split; discriminate|].
      split; [intros held _ Hheld; now apply deref_dropped|].
      split; [intros held _ Hheld; now apply deref_elsewhere|].
      reflexivity.
  - eexists; split; [reflexivity|]. simpl.
    repeat split; solve [reflexivity | exact Hopt].
Qed.

(** *** Emitting one move *)

Lemma move_at_Some (r : ParallelMoveResolver) (i : nat) (m : MoveOperands) :
  moves_ r !! i = Some m -> move_at i r = Done m r.
Proof. intros H. unfold move_at. now rewrite H. Qed.

Ltac run_EmitMove Hmove :=
  unfold EmitMove;
  rewrite (bind_Done _ _ _ _ _ (move_at_Some _ _ _ Hmove)).

(** What [after_move] says of a run: the code of the compiler is what it was
    followed by [code], and the operand is eliminated. *)
Lemma after_move_emitted (r : ParallelMoveResolver) (index : nat)
                         (move : MoveOperands) (code : list Bytecode) :
  moves_ r !! index = Some move ->
  EmitMove index r = Done tt (after_move r index code) ->
  exists r',
    EmitMove index r = Done tt r'
    /\ assembler (compiler_ r') = assembler (compiler_ r) ++ code
    /\ moves_ r' !! index = Some (Eliminate move).
Proof.
  intros Hmove Hrun. eexists. split; [exact Hrun|].
  split; [reflexivity|].
  cbn [after_move moves_]. rewrite list_lookup_alter_eq, Hmove. reflexivity.
Qed.

(** An unboxed double constant into a register, run by cases on its bit
    pattern. *)
Lemma EmitMove_double_constant_run
    (r : ParallelMoveResolver) (index : nat) (move : MoveOperands)
    (bits : Z) (rd : Register) :
  moves_ r !! index = Some move ->
  src move
    = Location_Constant (mkConstantInstr (Object_double bits) kUnboxedDouble) ->
  dest move = Location_Register rd ->
  (bits = positive_zero_bits ->
     EmitMove index r = Done tt (after_move r index [BitXor rd rd rd]))
  /\ (bits = negative_zero_bits ->
     EmitMove index r
       = Done tt (after_move r index
                    [LoadConstant rd (Object_double bits); UnboxDouble rd rd]))
  /\ (bits <> positive_zero_bits ->
     EmitMove index r
       = Done tt (after_move r index
                    [LoadConstant rd (Object_double bits); UnboxDouble rd rd])).
Proof.
  intros Hmove Hsrc Hdest.
  assert (Hliteral : bits <> positive_zero_bits ->
     EmitMove index r
       = Done tt (after_move r index
                    [LoadConstant rd (Object_double bits); UnboxDouble rd rd])).
  { intros Hne. run_EmitMove Hmove. rewrite Hsrc, Hdest.
    unfold bind, after_move, on_compiler, emit, update_move, modify,
      DoublesBitEqual. simpl.
    apply Z.eqb_neq in Hne. rewrite Hne. simpl.
    unfold set_assembler. simpl. now rewrite <- app_assoc. }
  split; [|split].
  - intros ->. run_EmitMove Hmove. rewrite Hsrc, Hdest. reflexivity.
  - intros ->. apply Hliteral. discriminate.
  - exact Hliteral.
Qed.

(** C5: a constant-to-register move of an unboxed double whose bit pattern
    is that of positive zero emits a self-XOR of the destination and no
    load; for the bit pattern of negative zero, as for every other pattern,
    the constant is loaded and unboxed.  The statement is on the code of the
    compiler after the move: what was there, followed by these
    instructions. *)
Theorem EmitMove_double_constant
    (r : ParallelMoveResolver) (index : nat) (move : MoveOperands)
    (bits : Z) (rd : Register) :
  moves_ r !! index = Some move ->
  src move
    = Location_Constant (mkConstantInstr (Object_double bits) kUnboxedDouble) ->
  dest move = Location_Register rd ->
  exists r',
    EmitMove index r = Done tt r'
    /\ moves_ r' !! index = Some (Eliminate move)
    /\ (bits = positive_zero_bits ->
        assembler (compiler_ r')
        = assembler (compiler_ r) ++ [BitXor rd rd rd])
    /\ (bits = negative_zero_bits ->
        assembler (compiler_ r')
        = assembler (compiler_ r) ++
          [LoadConstant rd (Object_double bits); UnboxDouble rd rd])
    /\ (bits <> positive_zero_bits ->
        assembler (compiler_ r')
        = assembler (compiler_ r) ++
          [LoadConstant rd (Object_double bits); UnboxDouble rd rd]).
Proof.
  intros Hmove Hsrc Hdest.
  destruct (EmitMove_double_constant_run r index move bits rd Hmove Hsrc Hdest)
    as (Hzero & _ & Hliteral).
  destruct (Z.eq_dec bits positive_zero_bits) as [Heq|Hne].
  - destruct (after_move_emitted r index move _ Hmove (Hzero Heq))
      as (r' & Hrun & Hcode & Hmoves).
    exists r'. split; [exact Hrun|]. split; [exact Hmoves|].
    split; [intros _; exact Hcode|].
    split; [intros Hminus; rewrite Hminus in Heq; discriminate Heq
           |intros Hne; contradiction].
  - destruct (after_move_emitted r index move _ Hmove (Hliteral Hne))
      as (r' & Hrun & Hcode & Hmoves).
    exists r'. split; [exact Hrun|]. split; [exact Hmoves|].
    split; [intros Heq; contradiction|].
    split; intros _; exact Hcode.
Qed.

(** C4, as the code has it: [EmitMove] bails out with "Unsupported move",
    with nothing emitted and the operand left as it was, exactly for the moves
    whose destination is no register and whose source is a register, a
    stack slot or a constant.  For no other move does it bail out; those
    among them that are not listed as supported stop in an assertion. *)
Theorem EmitMove_bailout
    (r : ParallelMoveResolver) (index : nat) (move : MoveOperands) :
  moves_ r !! index = Some move ->
  (IsRegister (dest move) = false /\ IsPseudoRegister (src move) = false ->
     EmitMove index r = BailedOut "Unsupported move" r)
  /\ (IsRegister (dest move) = true \/ IsPseudoRegister (src move) = true ->
     (forall reason r', EmitMove index r <> BailedOut reason r')
     /\ (listed_as_supported move = false ->
           EmitMove index r = AssertionFailed)).
Proof.
  intros Hmove. split.
  - intros [Hdest Hsrc]. run_EmitMove Hmove.
    destruct r as [moves c].
    destruct (src move), (dest move); try discriminate; reflexivity.
  - intros Hshape. unfold listed_as_supported. run_EmitMove Hmove.
    destruct (src move) as [rs|base ix|[[|bits|f|id] []]| | |],
             (dest move) as [rd|? ?|?| | |];
      simpl in Hshape; try (destruct Hshape; discriminate);
      unfold bind, ASSERT, on_compiler, emit, modify, update_move,
        DoublesBitEqual; simpl;
      try (split; [intros ? ?; discriminate | intros ?; try reflexivity;
                                               discriminate]).
    + destruct (base =? FPREG); simpl;
        [destruct (ix >? param_end_from_fp compiler_frame_layout); simpl|];
        (split; [intros ? ?; discriminate
                | intros ?; try reflexivity; discriminate]).
    + destruct (bits =? positive_zero_bits); simpl;
        (split; [intros ? ?; discriminate | intros ?; discriminate]).
Qed.

(** *** Emitting a swap *)

Lemma fix_sources_round (source destination : Location) (i : nat)
    (r : ParallelMoveResolver) (other : MoveOperands) :
  moves_ r !! i = Some other ->
  (if Blocks other source then update_move i (set_src destination)
   else if Blocks other destination then update_move i (set_src source)
   else ret tt) r
  = Done tt (mkParallelMoveResolver
               (alter (rewritten source destination) i (moves_ r))
               (compiler_ r)).
Proof.
  intros Hother. unfold rewritten.
  assert (Hext : forall f : MoveOperands -> MoveOperands,
             f other = rewritten source destination other ->
             alter f i (moves_ r)
             = alter (rewritten source destination) i (moves_ r)).
  { intros f Hf. apply list_alter_ext; [|reflexivity].
    intros x Hx. rewrite Hother in Hx. now injection Hx as <-. }
  unfold rewritten in Hext.
  destruct (Blocks other source) eqn:Hs.
  - unfold update_move, modify. f_equal. f_equal. now apply Hext.
  - destruct (Blocks other destination) eqn:Hd.
    + unfold update_move, modify. f_equal. f_equal. now apply Hext.
    + unfold ret. f_equal. destruct r as [moves c]. simpl in *. f_equal.
      rewrite <- (Hext id eq_refl). symmetry. now apply list_alter_id.
Qed.

(** The loop rewrites the operands at the positions it visits and no
    other. *)
Lemma fix_sources_run (source destination : Location) (n : nat) :
  forall (i : nat) (r : ParallelMoveResolver),
    (i + n <= length (moves_ r))%nat ->
    exists moves',
      fix_sources source destination n i r
        = Done tt (mkParallelMoveResolver moves' (compiler_ r))
      /\ length moves' = length (moves_ r)
      /\ forall j,
           moves' !! j
           = if decide (i <= j < i + n)%nat
             then rewritten source destination <$> moves_ r !! j
             else moves_ r !! j.
Proof.
  induction n as [|n IH]; intros i r Hlen.
  - exists (moves_ r). destruct r as [moves c]. simpl.
    repeat split. intros j. case_decide; [lia|reflexivity].
  - destruct (lookup_lt_is_Some_2 (moves_ r) i) as [other Hother]; [lia|].
    simpl.
    rewrite (bind_Done _ _ _ _ _ (move_at_Some _ _ _ Hother)).
    rewrite (bind_Done _ _ _ _ _
               (fix_sources_round source destination i r other Hother)).
    destruct (IH (S i)
                (mkParallelMoveResolver
                   (alter (rewritten source destination) i (moves_ r))
                   (compiler_ r))) as (moves' & Hrun & Hlength & Hlookup).
    { simpl. rewrite length_alter. lia. }
    exists moves'. simpl in *. split; [exact Hrun|].
    split; [now rewrite Hlength, length_alter|].
    intros j. rewrite Hlookup.
    destruct (decide (j = i)) as [->|Hne].
    + rewrite list_lookup_alter_eq.
      repeat case_decide; try lia; reflexivity.
    + rewrite list_lookup_alter_ne by congruence.
      repeat case_decide; try lia; reflexivity.
Qed.

(** C6: [EmitSwap] on a register-to-register operand emits one swap of the
    two registers and, before it returns, rewrites every other operand that
    is not yet eliminated: a source equal to the source of the swapped
    operand becomes its destination, a source equal to its destination
    becomes its source. *)
Theorem EmitSwap_rewrites_sources
    (r : ParallelMoveResolver) (index : nat) (move : MoveOperands)
    (rs rd : Register) :
  moves_ r !! index = Some move ->
  src move = Location_Register rs ->
  dest move = Location_Register rd ->
  exists r',
    EmitSwap index r = Done tt r'
    /\ assembler (compiler_ r') = assembler (compiler_ r) ++ [Swap rd rs]
    /\ moves_ r' !! index = Some (Eliminate move)
    /\ forall (i : nat) (other : MoveOperands),
         i <> index ->
         moves_ r !! i = Some other ->
         eliminated other = false ->
         (src other = src move ->
            moves_ r' !! i = Some (set_src (dest move) other))
         /\ (src other = dest move ->
            moves_ r' !! i = Some (set_src (src move) other)).
Proof.
  intros Hmove Hsrc Hdest.
  unfold EmitSwap.
  rewrite (bind_Done _ _ _ _ _ (move_at_Some _ _ _ Hmove)).
  rewrite Hsrc, Hdest.
  unfold bind at 1. simpl ASSERT. cbv iota beta.
  unfold bind at 1. simpl reg. unfold ret at 1.
  unfold bind at 1. unfold ret at 1.
  unfold bind at 1. unfold on_compiler, emit, modify. simpl.
  unfold bind at 1. unfold update_move, modify. simpl.
  unfold bind at 1. unfold get. simpl.
  destruct (fix_sources_run (Location_Register rs) (Location_Register rd)
              (length (alter Eliminate index (moves_ r))) 0
              (mkParallelMoveResolver
                 (alter Eliminate index (moves_ r))
                 (set_assembler (assembler (compiler_ r) ++ [Swap rd rs])
                                (compiler_ r))))
    as (moves' & Hrun & _ & Hlookup); [simpl; lia|].
  simpl in Hrun, Hlookup. rewrite Hrun.
  eexists. split; [reflexivity|]. simpl.
  split; [reflexivity|].
  assert (Hat : forall j,
             moves' !! j
             = rewritten (Location_Register rs) (Location_Register rd)
                 <$> alter Eliminate index (moves_ r) !! j).
  { intros j. rewrite Hlookup. case_decide as Hj; [reflexivity|].
    rewrite (lookup_ge_None_2 _ j); [reflexivity|]. lia. }
  split.
  - rewrite Hat, list_lookup_alter_eq, Hmove. reflexivity.
  - intros i other Hne Hother Hpending.
    rewrite Hat, list_lookup_alter_ne, Hother by congruence. simpl.
    unfold rewritten, Blocks, Location_Equals. rewrite Hpending. simpl.
    split; intros Heq; rewrite Heq.
    + now rewrite bool_decide_eq_true_2 by reflexivity.
    + destruct (bool_decide (Location_Register rd
                             = Location_Register rs)) eqn:E.
      * apply bool_decide_eq_true_1 in E. now rewrite <- E.
      * now rewrite bool_decide_eq_true_2 by reflexivity.
Qed.

(** *** The layout of a deoptimization table entry *)

Lemma numbered_app (ix : Z) (a b : list SlotDescriptor) :
  numbered ix (a ++ b) = numbered ix a ++ numbered (ix + Z.of_nat (length a)) b.
Proof.
  revert ix. induction a as [|d a IH]; intros ix; simpl.
  - now rewrite Z.add_0_r.
  - rewrite IH. do 3 f_equal. lia.
Qed.

Lemma append_append (l1 l2 : list DeoptInstr) (b : DeoptInfoBuilder) :
  append_instructions l2 (append_instructions l1 b)
  = append_instructions (l1 ++ l2) b.
Proof. unfold append_instructions. simpl. now rewrite <- app_assoc. Qed.

Lemma add_instruction_run (i : DeoptInstr) (b : DeoptInfoBuilder) :
  add_instruction i b = Done tt (append_instructions [i] b).
Proof. reflexivity. Qed.

Lemma AddCopies_run (env : Environment) (lo n : nat) :
  (lo + n <= Length env)%nat ->
  forall (slot_ix : Z) (b : DeoptInfoBuilder),
    AddCopies env lo n slot_ix b
    = Done (slot_ix + Z.of_nat n)
           (append_instructions
              (numbered slot_ix
                 (map copy_of (rev (take n (drop lo (values_ env)))))) b).
Proof.
  unfold Length. induction n as [|n IH]; intros Hlen slot_ix b.
  - simpl. unfold ret, append_instructions. rewrite Z.add_0_r, app_nil_r.
    now destruct b.
  - destruct (lookup_lt_is_Some_2 (values_ env) (lo + n)) as [[v l] Hslot];
      [lia|].
    assert (Htake : take (S n) (drop lo (values_ env))
                    = take n (drop lo (values_ env)) ++ [(v, l)]).
    { apply take_S_r. now rewrite lookup_drop. }
    rewrite Htake, rev_unit. simpl.
    unfold ValueAt, LocationAt, bind. rewrite Hslot. simpl.
    rewrite IH by lia. unfold append_instructions. simpl.
    rewrite <- app_assoc. simpl. f_equal. lia.
Qed.

Lemma AddMaterializations_run (mats : list MaterializeObjectInstr) :
  forall b : DeoptInfoBuilder,
    AddMaterializations mats b
    = Done tt (mkDeoptInfoBuilder
                 (instructions_ b ++ map MaterializeObject mats)
                 (materializations_ b ++ mats)
                 (current_info_number_ b)).
Proof.
  induction mats as [|mat mats IH]; intros b; simpl.
  - unfold ret. rewrite !app_nil_r. now destruct b.
  - unfold bind, AddMaterialization, modify. rewrite IH. simpl.
    now rewrite <- !app_assoc.
Qed.

Lemma AddMaterializationInputs_run (inputs : list (ValueId * Location)) :
  forall (dest_index : Z) (b : DeoptInfoBuilder),
    AddMaterializationInputs inputs dest_index b
    = Done (dest_index + Z.of_nat (length inputs))
           (append_instructions
              (numbered dest_index (map input_copy inputs)) b).
Proof.
  induction inputs as [|[v l] inputs IH]; intros dest_index b.
  - simpl. unfold ret, append_instructions. rewrite Z.add_0_r, app_nil_r.
    now destruct b.
  - cbn [AddMaterializationInputs].
    unfold bind, AddCopy. rewrite add_instruction_run, IH, append_append.
    simpl. f_equal. lia.
Qed.

Lemma AddMaterializationArguments_run (mats : list MaterializeObjectInstr) :
  forall (dest_index : Z) (b : DeoptInfoBuilder),
    AddMaterializationArguments mats dest_index b
    = Done (dest_index
            + Z.of_nat (length (materialization_arguments mats)))
           (append_instructions
              (numbered dest_index (materialization_arguments mats)) b).
Proof.
  induction mats as [|mat mats IH]; intros dest_index b.
  - simpl. unfold ret, append_instructions. rewrite Z.add_0_r, app_nil_r.
    now destruct b.
  - cbn [AddMaterializationArguments].
    unfold bind. rewrite AddMaterializationInputs_run, IH, append_append.
    unfold materialization_arguments. simpl.
    rewrite numbered_app, length_app, !length_map. f_equal. lia.
Qed.

Lemma walk_outer_unfold (previous current : Environment) (slot_ix : Z) :
  walk_outer previous current slot_ix
  = (AddReturnAddress (function current) (ToDeoptAfter (deopt_id current))
                      slot_ix >>
     AddPcMarker (function previous) (slot_ix + 1) >>
     AddConstant (Object_function (function previous)) (slot_ix + 1 + 1) >>
     let* slot_ix := AddCopies previous 0%nat (fixed_parameter_count previous)
                               (slot_ix + 1 + 1 + 1) in
     let* slot_ix := AddCopies current (fixed_parameter_count current)
                               (Length current - fixed_parameter_count current)%nat
                               slot_ix in
     AddCallerFp slot_ix >>
     match outer current with
     | None => ret (current, slot_ix + 1)
     | Some next => walk_outer current next (slot_ix + 1)
     end).
Proof. destruct current; reflexivity. Qed.

Lemma well_formed_here (env : Environment) :
  well_formed env = true ->
  (fixed_parameter_count env <= Length env)%nat.
Proof.
  destruct env as [vs n f d o]. simpl. intros H.
  apply andb_true_iff in H as [H _]. now apply Nat.leb_le in H.
Qed.

Lemma well_formed_outer (env next : Environment) :
  well_formed env = true -> outer env = Some next -> well_formed next = true.
Proof.
  destruct env as [vs n f d o]. simpl. intros H ->.
  now apply andb_true_iff in H as [_ H].
Qed.

Lemma locals_run (env : Environment) :
  well_formed env = true ->
  forall (slot_ix : Z) (b : DeoptInfoBuilder),
    AddCopies env (fixed_parameter_count env)
              (Length env - fixed_parameter_count env)%nat slot_ix b
    = Done (slot_ix + Z.of_nat (length (locals_descending env)))
           (append_instructions (numbered slot_ix (locals_descending env)) b).
Proof.
  intros Hwf slot_ix b. apply well_formed_here in Hwf.
  rewrite AddCopies_run by lia.
  unfold locals_descending, Length in *.
  rewrite take_ge by (rewrite length_drop; lia).
  rewrite length_map, length_rev, length_drop. reflexivity.
Qed.

Lemma parameters_run (env : Environment) :
  well_formed env = true ->
  forall (slot_ix : Z) (b : DeoptInfoBuilder),
    AddCopies env 0%nat (fixed_parameter_count env) slot_ix b
    = Done (slot_ix + Z.of_nat (length (parameters_descending env)))
           (append_instructions
              (numbered slot_ix (parameters_descending env)) b).
Proof.
  intros Hwf slot_ix b. apply well_formed_here in Hwf.
  rewrite AddCopies_run by lia.
  unfold parameters_descending, Length in *.
  rewrite drop_0, length_map, length_rev, length_take.
  do 2 f_equal. lia.
Qed.

Lemma walk_outer_run (current : Environment) :
  well_formed current = true ->
  forall (previous : Environment) (slot_ix : Z) (b : DeoptInfoBuilder),
    well_formed previous = true ->
    walk_outer previous current slot_ix b
    = Done (outermost current,
            slot_ix + Z.of_nat (length (outer_frames previous current)))
           (append_instructions
              (numbered slot_ix (outer_frames previous current)) b).
Proof.
  induction current as [current Hlast|current next Hnext IH] using chain_ind;
    intros Hwf previous slot_ix b Hprevious;
    rewrite walk_outer_unfold;
    unfold AddReturnAddress, AddPcMarker, AddConstant, AddCallerFp;
    rewrite (bind_Done _ _ _ _ _ (add_instruction_run _ _));
    rewrite (bind_Done _ _ _ _ _ (add_instruction_run _ _));
    rewrite (bind_Done _ _ _ _ _ (add_instruction_run _ _));
    rewrite (bind_Done _ _ _ _ _ (parameters_run _ Hprevious _ _));
    rewrite (bind_Done _ _ _ _ _ (locals_run _ Hwf _ _));
    rewrite (bind_Done _ _ _ _ _ (add_instruction_run _ _));
    rewrite !append_append.
  - rewrite Hlast. unfold ret.
    assert (Hframes : outer_frames previous current
                      = [ReturnAddress (function current)
                                       (deopt_id current + 1);
                         PcMarker (function previous);
                         Constant (Object_function (function previous))]
                        ++ parameters_descending previous
                        ++ locals_descending current ++ [CallerFp]).
    { destruct current as [vs n f d o]. simpl in Hlast. subst o.
      reflexivity. }
    assert (Hout : outermost current = current).
    { destruct current as [vs n f d o]. simpl in Hlast. now subst o. }
    rewrite Hframes, Hout. simpl.
    rewrite !numbered_app, !length_app. simpl. unfold ToDeoptAfter.
    f_equal. f_equal. lia.
  - rewrite Hnext.
    rewrite IH by eauto using well_formed_outer.
    assert (Hframes : outer_frames previous current
                      = [ReturnAddress (function current)
                                       (deopt_id current + 1);
                         PcMarker (function previous);
                         Constant (Object_function (function previous))]
                        ++ parameters_descending previous
                        ++ locals_descending current ++ [CallerFp]
                        ++ outer_frames current next).
    { destruct current as [vs n f d o]. simpl in Hnext. subst o.
      reflexivity. }
    assert (Hout : outermost current = outermost next).
    { destruct current as [vs n f d o]. simpl in Hnext. now subst o. }
    rewrite Hframes, Hout, append_append. simpl.
    rewrite !numbered_app, !length_app. simpl. unfold ToDeoptAfter.
    rewrite <- !app_assoc. simpl. f_equal. f_equal. lia.
Qed.

Lemma outermost_well_formed (env : Environment) :
  well_formed env = true -> well_formed (outermost env) = true.
Proof.
  induction env as [env Hlast|env next Hnext IH] using chain_ind; intros Hwf.
  - destruct env as [vs n f d o]. simpl in Hlast. now subst o.
  - assert (Hout : outermost env = outermost next).
    { destruct env as [vs n f d o]. simpl in Hnext. now subst o. }
    rewrite Hout. eauto using well_formed_outer.
Qed.

Lemma lazy_result_run (info : CompilerDeoptInfo) (compiler : FlowGraphCompiler)
    (env : Environment) (slot_ix : Z) (b : DeoptInfoBuilder) :
  (lazy_deopt_with_result_ info = true -> reason info = kDeoptAtCall) ->
  (if lazy_deopt_with_result_ info then
     ASSERT (DeoptReasonId_eqb (reason info) kDeoptAtCall) >>
     AddCopy None
       (Location_StackSlot_fp
          (FrameSlotForVariableIndex compiler_frame_layout
             (- AllocateIncomingParametersRecursive env (StackSize compiler))))
       slot_ix >>
     ret (slot_ix + 1)
   else ret slot_ix) b
  = Done (slot_ix + Z.of_nat (length (lazy_result_copy info compiler env)))
         (append_instructions
            (numbered slot_ix (lazy_result_copy info compiler env)) b).
Proof.
  intros Hreason. unfold lazy_result_copy.
  destruct (lazy_deopt_with_result_ info).
  - rewrite Hreason by reflexivity. reflexivity.
  - simpl. unfold ret, append_instructions.
    rewrite Z.add_0_r, app_nil_r. now destruct b.
Qed.

(** [CreateDeoptInfo] on a chain: the whole entry. *)
Lemma CreateDeoptInfo_run
    (info : CompilerDeoptInfo) (compiler : FlowGraphCompiler)
    (deopt_table : Array) (env : Environment) (b : DeoptInfoBuilder) :
  runs_through info env ->
  CreateDeoptInfo info compiler deopt_table b
  = packed deopt_table (built info compiler env b).
Proof.
  intros (Henv & Hwf & Hreason).
  unfold CreateDeoptInfo. rewrite Henv.
  unfold EmitMaterializations.
  rewrite (bind_Done _ _ _ _ _ (AddMaterializations_run _ _)).
  unfold MarkFrameStart, AddCallerFp, AddReturnAddress, AddPcMarker,
    AddConstant, AddCallerPc.
  do 5 rewrite (bind_Done _ _ _ _ _ (add_instruction_run _ _)).
  unfold EmitMaterializationArguments.
  unfold bind at 1. unfold get at 1.
  unfold bind at 1. rewrite AddMaterializationArguments_run.
  rewrite (bind_Done _ _ _ _ _
             (lazy_result_run info compiler env _ _ Hreason)).
  rewrite (bind_Done _ _ _ _ _ (locals_run _ Hwf _ _)).
  rewrite (bind_Done _ _ _ _ _ (add_instruction_run _ _)).
  assert (Hwalk : forall slot_ix b0,
    match outer env with
    | None => ret (env, slot_ix)
    | Some next => walk_outer env next slot_ix
    end b0
    = Done (outermost env,
            slot_ix
            + Z.of_nat (length match outer env with
                               | None => []
                               | Some next => outer_frames env next
                               end))
           (append_instructions
              (numbered slot_ix match outer env with
                                | None => []
                                | Some next => outer_frames env next
                                end) b0)).
  { intros slot_ix b0. destruct (outer env) as [next|] eqn:Hnext.
    - rewrite walk_outer_run by eauto using well_formed_outer.
      do 2 f_equal. destruct env as [vs n f d o]. simpl in Hnext.
      now subst o.
    - unfold ret, append_instructions. simpl.
      rewrite Z.add_0_r, app_nil_r.
      destruct env as [vs n f d o]. simpl in Hnext. subst o.
      now destruct b0. }
  rewrite (bind_Done _ _ _ _ _ (Hwalk _ _)).
  cbn [fst snd].
  do 3 rewrite (bind_Done _ _ _ _ _ (add_instruction_run _ _)).
  rewrite (bind_Done _ _ _ _ _
             (parameters_run _ (outermost_well_formed _ Hwf) _ _)).
  rewrite !append_append.
  unfold packed, built, frame_descriptors, frames_after_arguments,
    outermost_tail.
  match goal with
  | |- (let (_, _) := _ ?t ?x in _) = (let (_, _) := _ ?t ?y in _) =>
      replace x with y; [reflexivity|]
  end.
  unfold append_instructions. simpl. f_equal.
  rewrite <- !app_assoc. f_equal. f_equal. simpl. do 5 f_equal.
  repeat first [rewrite numbered_app | progress simpl].
  repeat first [reflexivity | lia | f_equal].
Qed.

(** The order of [parameters_descending]: position [j] holds the copy of
    slot [fixed_parameter_count - 1 - j]. *)
Lemma parameters_descending_lookup (env : Environment) (j : nat) :
  (fixed_parameter_count env <= Length env)%nat ->
  (j < fixed_parameter_count env)%nat ->
  exists slot,
    values_ env !! (fixed_parameter_count env - 1 - j)%nat = Some slot
    /\ parameters_descending env !! j = Some (copy_of slot).
Proof.
  unfold Length, parameters_descending. intros Hwf Hj.
  destruct (lookup_lt_is_Some_2 (values_ env)
              (fixed_parameter_count env - 1 - j)) as [slot Hslot]; [lia|].
  exists slot. split; [exact Hslot|].
  rewrite rev_alt. change (rev_append ?l []) with (reverse l).
  rewrite list_lookup_fmap, reverse_lookup by (rewrite length_take; lia).
  rewrite length_take, lookup_take_lt by lia.
  replace (fixed_parameter_count env `min` length (values_ env) - S j)%nat
    with (fixed_parameter_count env - 1 - j)%nat by lia.
  now rewrite Hslot.
Qed.

Lemma no_CallerFp_in_copies (k : Z) (slots : list (Value * Location)) (ix : Z) :
  ~ In (Slot ix CallerFp) (numbered k (map copy_of slots)).
Proof.
  revert k. induction slots as [|slot slots IH]; intros k; simpl.
  - tauto.
  - intros [H|H]; [discriminate|]. now apply IH in H.
Qed.

(** *** The deoptimization table entry of a chain *)

(** C1, as the code has it: for a chain on which [CreateDeoptInfo] runs, the
    materialization descriptors of all flagged instructions are emitted
    before the frame-start marker; the copies of their source values are
    emitted after it, directly behind the four header slots of the innermost
    frame, from slot index 4 on. *)
Theorem CreateDeoptInfo_materializations
    (info : CompilerDeoptInfo) (compiler : FlowGraphCompiler)
    (deopt_table : Array) (env : Environment) (b : DeoptInfoBuilder) :
  runs_through info env ->
  exists b' header rest,
    CreateDeoptInfo info compiler deopt_table b = packed deopt_table b'
    /\ materializations_ b' = materializations_ b ++ flagged_in_chain env
    /\ length header = 4%nat
    /\ instructions_ b'
       = instructions_ b
         ++ map MaterializeObject (flagged_in_chain env)
         ++ FrameStart
            :: numbered 0 header
            ++ numbered 4 (materialization_arguments (materializations_ b'))
            ++ rest.
Proof.
  intros Hruns.
  exists (built info compiler env b).
  exists [CallerFp; ReturnAddress (function env) (info_deopt_id info);
          PcMarker Function_null; Constant (Object_function Function_null)].
  exists (numbered
            (4 + Z.of_nat (length (materialization_arguments
                                     (materializations_ b
                                      ++ flagged_in_chain env))))
            (frames_after_arguments info compiler env ++ outermost_tail env)).
  split; [now apply CreateDeoptInfo_run|].
  split; [reflexivity|]. split; [reflexivity|].
  unfold built, frame_descriptors. cbn [instructions_ materializations_].
  do 3 f_equal.
  rewrite numbered_app. f_equal.
  now rewrite numbered_app.
Qed.

(** C2, as the code has it: for a chain on which [CreateDeoptInfo] runs, the
    frame-start marker is followed by the innermost frame header: a
    caller-frame-pointer slot, a return-address slot with the function of the
    innermost frame and the deopt id of the info, a pc-marker slot that holds
    the null function handle, and a constant slot that holds the same null
    handle. *)
Theorem CreateDeoptInfo_innermost_header
    (info : CompilerDeoptInfo) (compiler : FlowGraphCompiler)
    (deopt_table : Array) (env : Environment) (b : DeoptInfoBuilder) :
  runs_through info env ->
  exists b' rest,
    CreateDeoptInfo info compiler deopt_table b = packed deopt_table b'
    /\ instructions_ b'
       = instructions_ b
         ++ map MaterializeObject (flagged_in_chain env)
         ++ FrameStart
            :: Slot 0 CallerFp
            :: Slot 1 (ReturnAddress (function env) (info_deopt_id info))
            :: Slot 2 (PcMarker Function_null)
            :: Slot 3 (Constant (Object_function Function_null))
            :: rest.
Proof.
  intros Hruns.
  exists (built info compiler env b).
  exists (numbered 4
            (materialization_arguments
               (materializations_ b ++ flagged_in_chain env)
             ++ frames_after_arguments info compiler env
             ++ outermost_tail env)).
  split; [now apply CreateDeoptInfo_run|].
  reflexivity.
Qed.

(** C7: for a chain on which [CreateDeoptInfo] runs, the emitted sequence
    ends with a caller-pc slot, the pc marker and the constant of the
    function of the outermost environment, and the copies of its fixed
    parameters from index [fixed_parameter_count - 1] down to [0]; no
    caller-frame-pointer slot occurs in this end. *)
Theorem CreateDeoptInfo_outermost_frame
    (info : CompilerDeoptInfo) (compiler : FlowGraphCompiler)
    (deopt_table : Array) (env : Environment) (b : DeoptInfoBuilder) :
  runs_through info env ->
  let last := outermost env in
  exists b' before k,
    CreateDeoptInfo info compiler deopt_table b = packed deopt_table b'
    /\ instructions_ b'
       = before
         ++ Slot k CallerPc
            :: Slot (k + 1) (PcMarker (function last))
            :: Slot (k + 2) (Constant (Object_function (function last)))
            :: numbered (k + 3) (parameters_descending last)
    /\ length (parameters_descending last) = fixed_parameter_count last
    /\ (forall j, (j < fixed_parameter_count last)%nat ->
          exists slot,
            values_ last !! (fixed_parameter_count last - 1 - j)%nat
              = Some slot
            /\ parameters_descending last !! j = Some (copy_of slot))
    /\ (forall ix,
          ~ In (Slot ix CallerFp)
               (Slot k CallerPc
                :: Slot (k + 1) (PcMarker (function last))
                :: Slot (k + 2) (Constant (Object_function (function last)))
                :: numbered (k + 3) (parameters_descending last))).
Proof.
  intros Hruns last.
  assert (Hlast : (fixed_parameter_count last <= Length last)%nat).
  { apply well_formed_here, outermost_well_formed, Hruns. }
  exists (built info compiler env b).
  exists (instructions_ b
          ++ map MaterializeObject (flagged_in_chain env)
          ++ FrameStart
             :: numbered 0
                  ([CallerFp;
                    ReturnAddress (function env) (info_deopt_id info);
                    PcMarker Function_null;
                    Constant (Object_function Function_null)]
                   ++ materialization_arguments
                        (materializations_ b ++ flagged_in_chain env)
                   ++ frames_after_arguments info compiler env)).
  exists (0 + Z.of_nat
                (length
                   ([CallerFp;
                     ReturnAddress (function env) (info_deopt_id info);
                     PcMarker Function_null;
                     Constant (Object_function Function_null)]
                    ++ materialization_arguments
                         (materializations_ b ++ flagged_in_chain env)
                    ++ frames_after_arguments info compiler env))).
  split; [now apply CreateDeoptInfo_run|].
  split; [|split; [|split]].
  - unfold built, frame_descriptors, outermost_tail.
    cbn [instructions_]. fold last.
    set (header := [CallerFp;
                    ReturnAddress (function env) (info_deopt_id info);
                    PcMarker Function_null;
                    Constant (Object_function Function_null)]).
    set (arguments := materialization_arguments
                        (materializations_ b ++ flagged_in_chain env)).
    set (frames := frames_after_arguments info compiler env).
    replace (header ++ arguments ++ frames
             ++ [CallerPc; PcMarker (function last);
                 Constant (Object_function (function last))]
             ++ parameters_descending last)
      with ((header ++ arguments ++ frames)
            ++ [CallerPc; PcMarker (function last);
                Constant (Object_function (function last))]
            ++ parameters_descending last)
      by now rewrite <- !app_assoc.
    rewrite numbered_app.
    set (k := 0 + Z.of_nat (length (header ++ arguments ++ frames))).
    rewrite <- !app_assoc. do 2 f_equal.
    rewrite <- app_comm_cons. f_equal. f_equal.
    cbn [numbered app].
    repeat first [reflexivity | lia | f_equal].
  - unfold parameters_descending, Length in *.
    rewrite length_map, length_rev, length_take. lia.
  - intros j Hj. now apply parameters_descending_lookup.
  - intros ix [H|[H|[H|H]]]; try discriminate.
    unfold parameters_descending in H.
    now apply no_CallerFp_in_copies in H.
Qed.

Lemma outer_frames_end (current : Environment) :
  forall previous : Environment,
    exists init, outer_frames previous current = init ++ [CallerFp].
Proof.
  induction current as [current Hlast|current next Hnext IH] using chain_ind;
    intros previous.
  - destruct current as [vs n f d o]. simpl in Hlast. subst o.
    eexists. cbn [outer_frames outer]. rewrite app_nil_r.
    rewrite !app_assoc. reflexivity.
  - destruct (IH current) as [init Hinit].
    destruct current as [vs n f d o]. simpl in Hnext. subst o.
    eexists. cbn [outer_frames outer]. cbn [outer_frames outer] in Hinit.
    rewrite Hinit. rewrite !app_assoc. reflexivity.
Qed.

Lemma frames_after_arguments_end (info : CompilerDeoptInfo)
    (compiler : FlowGraphCompiler) (env : Environment) :
  exists init, frames_after_arguments info compiler env = init ++ [CallerFp].
Proof.
  unfold frames_after_arguments.
  destruct (outer env) as [next|].
  - destruct (outer_frames_end next env) as [init Hinit]. rewrite Hinit.
    eexists. rewrite !app_assoc. reflexivity.
  - eexists. rewrite app_nil_r, !app_assoc. reflexivity.
Qed.

(** The slot in front of the caller-pc slot is the caller-frame-pointer slot
    that closes the locals of the outermost frame: the caller pc stands where
    the frames inside have their return address. *)
Lemma CreateDeoptInfo_caller_fp_then_caller_pc
    (info : CompilerDeoptInfo) (compiler : FlowGraphCompiler)
    (deopt_table : Array) (env : Environment) (b : DeoptInfoBuilder) :
  runs_through info env ->
  let last := outermost env in
  exists b' before k,
    CreateDeoptInfo info compiler deopt_table b = packed deopt_table b'
    /\ instructions_ b'
       = before
         ++ Slot k CallerFp
            :: Slot (k + 1) CallerPc
            :: Slot (k + 2) (PcMarker (function last))
            :: Slot (k + 3) (Constant (Object_function (function last)))
            :: numbered (k + 4) (parameters_descending last).
Proof.
  intros Hruns last.
  destruct (frames_after_arguments_end info compiler env) as [init Hinit].
  set (header := [CallerFp;
                  ReturnAddress (function env) (info_deopt_id info);
                  PcMarker Function_null;
                  Constant (Object_function Function_null)]).
  set (arguments := materialization_arguments
                      (materializations_ b ++ flagged_in_chain env)).
  exists (built info compiler env b).
  exists (instructions_ b
          ++ map MaterializeObject (flagged_in_chain env)
          ++ FrameStart :: numbered 0 (header ++ arguments ++ init)).
  exists (0 + Z.of_nat (length (header ++ arguments ++ init))).
  split; [now apply CreateDeoptInfo_run|].
  unfold built, frame_descriptors, outermost_tail.
  cbn [instructions_]. fold last. fold header. fold arguments.
  rewrite Hinit.
  replace (header ++ arguments ++ (init ++ [CallerFp])
           ++ [CallerPc; PcMarker (function last);
               Constant (Object_function (function last))]
           ++ parameters_descending last)
    with ((header ++ arguments ++ init)
          ++ [CallerFp; CallerPc; PcMarker (function last);
              Constant (Object_function (function last))]
          ++ parameters_descending last)
    by now rewrite <- !app_assoc.
  rewrite numbered_app.
  rewrite <- !app_assoc. do 2 f_equal.
  rewrite <- app_comm_cons. f_equal. f_equal.
  cbn [numbered app].
  repeat first [reflexivity | lia | f_equal].
Qed.

(** *** More on the deoptimization table entry *)

Lemma numbered_lookup (ds : list SlotDescriptor) :
  forall (ix : Z) (k : nat),
    numbered ix ds !! k = Slot (ix + Z.of_nat k) <$> ds !! k.
Proof.
  induction ds as [|d ds IH]; intros ix k; [now destruct k|].
  destruct k as [|k]; simpl.
  - now rewrite Z.add_0_r.
  - rewrite IH. destruct (ds !! k); simpl; [|reflexivity].
    do 2 f_equal. lia.
Qed.

Lemma length_numbered (ds : list SlotDescriptor) (ix : Z) :
  length (numbered ix ds) = length ds.
Proof. revert ix. induction ds; intros ix; simpl; auto. Qed.

Lemma length_locals_descending (env : Environment) :
  length (locals_descending env)
  = (Length env - fixed_parameter_count env)%nat.
Proof.
  unfold locals_descending, Length.
  now rewrite length_map, length_rev, length_drop.
Qed.

Lemma length_parameters_descending (env : Environment) :
  (fixed_parameter_count env <= Length env)%nat ->
  length (parameters_descending env) = fixed_parameter_count env.
Proof.
  unfold parameters_descending, Length. intros H.
  rewrite length_map, length_rev, length_take. lia.
Qed.

Lemma outer_frames_unfold (previous current : Environment) :
  outer_frames previous current
  = [ReturnAddress (function current) (deopt_id current + 1);
     PcMarker (function previous);
     Constant (Object_function (function previous))]
    ++ parameters_descending previous
    ++ locals_descending current
    ++ [CallerFp]
    ++ match outer current with
       | None => []
       | Some next => outer_frames current next
       end.
Proof. destruct current; reflexivity. Qed.

Lemma outermost_unfold (env : Environment) :
  outermost env = match outer env with
                  | None => env
                  | Some next => outermost next
                  end.
Proof. destruct env; reflexivity. Qed.


Lemma depth_unfold (env : Environment) :
  depth env = S match outer env with
                | None => 0
                | Some next => depth next
                end.
Proof. destruct env; reflexivity. Qed.

Lemma frame_slots_unfold (env : Environment) :
  frame_slots env
  = (Length env + 4
     + match outer env with
       | None => 0
       | Some next => frame_slots next
       end)%nat.
Proof. destruct env; reflexivity. Qed.

Lemma chain_copies_unfold (env : Environment) :
  chain_copies env
  = map copy_of (values_ env)
    ++ match outer env with
       | None => []
       | Some next => chain_copies next
       end.
Proof. destruct env; reflexivity. Qed.


(** The entry that [CreateDeoptInfo] appends, as one list of descriptors at
    consecutive slot indices. *)
Lemma CreateDeoptInfo_entry
    (info : CompilerDeoptInfo) (compiler : FlowGraphCompiler)
    (deopt_table : Array) (env : Environment) (b : DeoptInfoBuilder) :
  runs_through info env ->
  exists b',
    CreateDeoptInfo info compiler deopt_table b = packed deopt_table b'
    /\ instructions_ b'
       = instructions_ b
         ++ map MaterializeObject (flagged_in_chain env)
         ++ FrameStart
            :: numbered 0 (frame_descriptors info compiler env
                             (materializations_ b ++ flagged_in_chain env)).
Proof.
  intros Hruns. exists (built info compiler env b).
  split; [now apply CreateDeoptInfo_run | reflexivity].
Qed.

(** X1: the slot indices that [CreateDeoptInfo] hands to the builder start
    at 0 behind the frame-start marker and go up by one from descriptor to
    descriptor: the descriptor at position [k] of the frame is added at slot
    index [k], and nothing but slot descriptors follows the marker. *)
Theorem CreateDeoptInfo_slot_indices
    (info : CompilerDeoptInfo) (compiler : FlowGraphCompiler)
    (deopt_table : Array) (env : Environment) (b : DeoptInfoBuilder) :
  runs_through info env ->
  exists b' frame,
    CreateDeoptInfo info compiler deopt_table b = packed deopt_table b'
    /\ instructions_ b'
       = instructions_ b
         ++ map MaterializeObject (flagged_in_chain env)
         ++ FrameStart :: frame
    /\ forall k i,
         frame !! k = Some i ->
         exists d, i = Slot (Z.of_nat k) d.
Proof.
  intros Hruns.
  destruct (CreateDeoptInfo_entry info compiler deopt_table env b Hruns)
    as (b' & Hrun & Hinstrs).
  exists b'. eexists. split; [exact Hrun|]. split; [exact Hinstrs|].
  intros k i Hk. rewrite numbered_lookup in Hk.
  destruct (_ !! k) as [d|]; [|discriminate].
  exists d. simpl in Hk. now injection Hk as <-.
Qed.

Lemma outer_frames_length (current : Environment) :
  well_formed current = true ->
  forall previous : Environment,
    (fixed_parameter_count previous <= Length previous)%nat ->
    (length (outer_frames previous current)
     + fixed_parameter_count (outermost current)
     = fixed_parameter_count previous + frame_slots current)%nat.
Proof.
  induction current as [current Hlast|current next Hnext IH] using chain_ind;
    intros Hwf previous Hprevious;
    pose proof (well_formed_here _ Hwf) as Hhere;
    rewrite outer_frames_unfold, outermost_unfold, frame_slots_unfold;
    rewrite !length_app, length_locals_descending,
      length_parameters_descending by assumption.
  - rewrite Hlast. simpl. lia.
  - rewrite Hnext.
    specialize (IH (well_formed_outer _ _ Hwf Hnext) current Hhere).
    simpl. lia.
Qed.

Lemma frame_descriptors_length
    (info : CompilerDeoptInfo) (compiler : FlowGraphCompiler)
    (env : Environment) (mats : list MaterializeObjectInstr) :
  well_formed env = true ->
  length (frame_descriptors info compiler env mats)
  = (4 + length (materialization_arguments mats)
     + (if lazy_deopt_with_result_ info then 1 else 0)
     + frame_slots env)%nat.
Proof.
  intros Hwf. pose proof (well_formed_here _ Hwf) as Hhere.
  unfold frame_descriptors, frames_after_arguments, outermost_tail.
  rewrite !length_app, length_locals_descending.
  rewrite length_parameters_descending
    by now apply well_formed_here, outermost_well_formed.
  assert (Hlazy : length (lazy_result_copy info compiler env)
                  = if lazy_deopt_with_result_ info then 1%nat else 0%nat).
  { unfold lazy_result_copy. now destruct (lazy_deopt_with_result_ info). }
  rewrite Hlazy, outermost_unfold, frame_slots_unfold.
  destruct (outer env) as [next|] eqn:Hnext.
  - pose proof (outer_frames_length next (well_formed_outer _ _ Hwf Hnext)
                  env Hhere) as Hlen.
    simpl. lia.
  - simpl. lia.
Qed.

(** X2: the frame that [CreateDeoptInfo] describes has four header slots,
    one slot per materialization argument, one more slot for a lazy
    deoptimization with result, and for each frame of the chain one slot for
    every value of its environment and four more. *)
Theorem CreateDeoptInfo_frame_size
    (info : CompilerDeoptInfo) (compiler : FlowGraphCompiler)
    (deopt_table : Array) (env : Environment) (b : DeoptInfoBuilder) :
  runs_through info env ->
  exists b' frame,
    CreateDeoptInfo info compiler deopt_table b = packed deopt_table b'
    /\ instructions_ b'
       = instructions_ b
         ++ map MaterializeObject (flagged_in_chain env)
         ++ FrameStart :: frame
    /\ length frame
       = (4
          + length (materialization_arguments
                      (materializations_ b ++ flagged_in_chain env))
          + (if lazy_deopt_with_result_ info then 1 else 0)
          + frame_slots env)%nat.
Proof.
  intros Hruns.
  destruct (CreateDeoptInfo_entry info compiler deopt_table env b Hruns)
    as (b' & Hrun & Hinstrs).
  exists b'. eexists. split; [exact Hrun|]. split; [exact Hinstrs|].
  rewrite length_numbered. apply frame_descriptors_length, Hruns.
Qed.

Lemma count_app (p : SlotDescriptor -> bool) (a b : list SlotDescriptor) :
  count p (a ++ b) = (count p a + count p b)%nat.
Proof. induction a as [|d a IH]; simpl; [reflexivity|]. rewrite IH. lia. Qed.

Lemma count_no_Copy (p : SlotDescriptor -> bool) (ds : list SlotDescriptor) :
  (forall v l, p (Copy v l) = false) ->
  Forall (fun d => is_Copy d = true) ds ->
  count p ds = 0%nat.
Proof.
  intros Hp Hall. induction Hall as [|d ds Hd _ IH]; [reflexivity|].
  destruct d; try discriminate. simpl. now rewrite Hp, IH.
Qed.

Lemma copies_only_map_copy_of (slots : list (Value * Location)) :
  Forall (fun d => is_Copy d = true) (map copy_of slots).
Proof. induction slots; constructor; auto. Qed.

Lemma copies_only_locals (env : Environment) :
  Forall (fun d => is_Copy d = true) (locals_descending env).
Proof. apply copies_only_map_copy_of. Qed.

Lemma copies_only_parameters (env : Environment) :
  Forall (fun d => is_Copy d = true) (parameters_descending env).
Proof. apply copies_only_map_copy_of. Qed.

Lemma copies_only_arguments (mats : list MaterializeObjectInstr) :
  Forall (fun d => is_Copy d = true) (materialization_arguments mats).
Proof.
  unfold materialization_arguments.
  induction mats as [|mat mats IH]; simpl; [constructor|].
  apply Forall_app. split; [|exact IH].
  induction (mat_inputs mat); constructor; auto.
Qed.

Lemma copies_only_lazy (info : CompilerDeoptInfo)
    (compiler : FlowGraphCompiler) (env : Environment) :
  Forall (fun d => is_Copy d = true) (lazy_result_copy info compiler env).
Proof.
  unfold lazy_result_copy. destruct (lazy_deopt_with_result_ info);
    repeat constructor.
Qed.

(** The linkage descriptors of the outer frames: one return address, one pc
    marker and one caller frame pointer per frame, and no caller pc. *)
Lemma outer_frames_count (p : SlotDescriptor -> bool) (per_frame : nat) :
  (forall v l, p (Copy v l) = false) ->
  (forall f id g o,
     ((if p (ReturnAddress f id) then 1 else 0)
      + (if p (PcMarker g) then 1 else 0)
      + (if p (Constant o) then 1 else 0)
      + (if p CallerFp then 1 else 0) = per_frame)%nat) ->
  forall current previous : Environment,
    count p (outer_frames previous current) = (per_frame * depth current)%nat.
Proof.
  intros Hcopy Hframe current.
  induction current as [current Hlast|current next Hnext IH] using chain_ind;
    intros previous;
    rewrite outer_frames_unfold, depth_unfold, !count_app;
    rewrite (count_no_Copy p _ Hcopy (copies_only_parameters previous));
    rewrite (count_no_Copy p _ Hcopy (copies_only_locals current));
    pose proof (Hframe (function current) (deopt_id current + 1)
                  (function previous)
                  (Object_function (function previous))) as Hhere.
  - rewrite Hlast. simpl in *. lia.
  - rewrite Hnext, IH. simpl in *. lia.
Qed.

Lemma frame_descriptors_count (p : SlotDescriptor -> bool) (per_frame : nat)
    (info : CompilerDeoptInfo) (compiler : FlowGraphCompiler)
    (env : Environment) (mats : list MaterializeObjectInstr) :
  (forall v l, p (Copy v l) = false) ->
  (forall f id g o,
     ((if p (ReturnAddress f id) then 1 else 0)
      + (if p (PcMarker g) then 1 else 0)
      + (if p (Constant o) then 1 else 0)
      + (if p CallerFp then 1 else 0) = per_frame)%nat) ->
  count p (frame_descriptors info compiler env mats)
  = (per_frame * depth env
     + (if p CallerFp then 1 else 0)
     + (if p CallerPc then 1 else 0)
     + (if p (PcMarker (function (outermost env))) then 1 else 0)
     + (if p (Constant (Object_function (function (outermost env))))
        then 1 else 0))%nat.
Proof.
  intros Hcopy Hframe.
  unfold frame_descriptors, frames_after_arguments, outermost_tail.
  rewrite !count_app.
  rewrite (count_no_Copy p _ Hcopy (copies_only_arguments mats)).
  rewrite (count_no_Copy p _ Hcopy (copies_only_lazy info compiler env)).
  rewrite (count_no_Copy p _ Hcopy (copies_only_locals env)).
  rewrite (count_no_Copy p _ Hcopy
             (copies_only_parameters (outermost env))).
  rewrite depth_unfold.
  pose proof (Hframe (function env) (info_deopt_id info) Function_null
                (Object_function Function_null)) as Hheader.
  destruct (outer env) as [next|].
  - rewrite (outer_frames_count p per_frame Hcopy Hframe). simpl in *. lia.
  - simpl in *. lia.
Qed.

(** X3: in the frame that [CreateDeoptInfo] describes for a chain of [n]
    environments there are [n] return-address slots, [n + 1] pc markers,
    [n + 1] caller-frame-pointer slots and exactly one caller-pc slot. *)
Theorem CreateDeoptInfo_linkage_counts
    (info : CompilerDeoptInfo) (compiler : FlowGraphCompiler)
    (deopt_table : Array) (env : Environment) (b : DeoptInfoBuilder) :
  runs_through info env ->
  exists b' descriptors,
    CreateDeoptInfo info compiler deopt_table b = packed deopt_table b'
    /\ instructions_ b'
       = instructions_ b
         ++ map MaterializeObject (flagged_in_chain env)
         ++ FrameStart :: numbered 0 descriptors
    /\ count is_ReturnAddress descriptors = depth env
    /\ count is_PcMarker descriptors = (depth env + 1)%nat
    /\ count is_CallerFp descriptors = (depth env + 1)%nat
    /\ count is_CallerPc descriptors = 1%nat.
Proof.
  intros Hruns.
  destruct (CreateDeoptInfo_entry info compiler deopt_table env b Hruns)
    as (b' & Hrun & Hinstrs).
  exists b'. eexists. split; [exact Hrun|]. split; [exact Hinstrs|].
  set (mats := materializations_ b ++ flagged_in_chain env).
  pose proof (frame_descriptors_count is_ReturnAddress 1 info compiler env
                mats ltac:(reflexivity) ltac:(reflexivity)) as Hra.
  pose proof (frame_descriptors_count is_PcMarker 1 info compiler env
                mats ltac:(reflexivity) ltac:(reflexivity)) as Hpm.
  pose proof (frame_descriptors_count is_CallerFp 1 info compiler env
                mats ltac:(reflexivity) ltac:(reflexivity)) as Hfp.
  pose proof (frame_descriptors_count is_CallerPc 0 info compiler env
                mats ltac:(reflexivity) ltac:(reflexivity)) as Hpc.
  repeat split; [rewrite Hra | rewrite Hpm | rewrite Hfp | rewrite Hpc];
    simpl; lia.
Qed.

Lemma outer_frames_neighbours (env inner caller : Environment) :
  neighbours env inner caller ->
  exists before after,
    [CallerFp]
    ++ match outer env with
       | None => []
       | Some next => outer_frames env next
       end
    = before
      ++ [CallerFp;
          ReturnAddress (function caller) (deopt_id caller + 1);
          PcMarker (function inner);
          Constant (Object_function (function inner))]
      ++ parameters_descending inner
      ++ after.
Proof.
  induction 1 as [env next Hnext|env next inner caller Hnext _ IH].
  - rewrite Hnext, outer_frames_unfold.
    exists []. eexists. reflexivity.
  - destruct IH as (before & after & Hsplit).
    rewrite Hnext, outer_frames_unfold.
    exists ([CallerFp;
             ReturnAddress (function next) (deopt_id next + 1);
             PcMarker (function env);
             Constant (Object_function (function env))]
            ++ parameters_descending env
            ++ locals_descending next ++ before).
    exists after.
    rewrite <- !app_assoc. cbn [app]. do 4 f_equal.
    do 2 f_equal. exact Hsplit.
Qed.

(** X4: for every environment [inner] of the chain that was inlined into
    an environment [caller], the frame holds, one behind the other: a
    caller-frame-pointer slot, the return address into [caller] with the
    after-call id [deopt_id caller + 1], the pc marker and the constant of
    the function of [inner], and the copies of the fixed parameters of
    [inner] in descending order. *)
Theorem CreateDeoptInfo_inlined_frame
    (info : CompilerDeoptInfo) (compiler : FlowGraphCompiler)
    (deopt_table : Array) (env inner caller : Environment)
    (b : DeoptInfoBuilder) :
  runs_through info env ->
  neighbours env inner caller ->
  exists b' before k rest,
    CreateDeoptInfo info compiler deopt_table b = packed deopt_table b'
    /\ instructions_ b'
       = before
         ++ Slot k CallerFp
            :: Slot (k + 1) (ReturnAddress (function caller)
                                           (deopt_id caller + 1))
            :: Slot (k + 2) (PcMarker (function inner))
            :: Slot (k + 3) (Constant (Object_function (function inner)))
            :: numbered (k + 4) (parameters_descending inner)
            ++ rest.
Proof.
  intros Hruns Hneighbours.
  destruct (CreateDeoptInfo_entry info compiler deopt_table env b Hruns)
    as (b' & Hrun & Hinstrs).
  destruct (outer_frames_neighbours env inner caller Hneighbours)
    as (before & after & Hsplit).
  set (mats := materializations_ b ++ flagged_in_chain env) in *.
  set (start := [CallerFp; ReturnAddress (function env) (info_deopt_id info);
                 PcMarker Function_null;
                 Constant (Object_function Function_null)]
                ++ materialization_arguments mats
                ++ lazy_result_copy info compiler env
                ++ locals_descending env ++ before).
  assert (Hframe : frame_descriptors info compiler env mats
                   = start
                     ++ [CallerFp;
                         ReturnAddress (function caller) (deopt_id caller + 1);
                         PcMarker (function inner);
                         Constant (Object_function (function inner))]
                     ++ parameters_descending inner
                     ++ after ++ outermost_tail env).
  { unfold frame_descriptors, frames_after_arguments, start.
    rewrite <- !app_assoc. do 4 f_equal.
    rewrite !app_assoc. f_equal. rewrite <- !app_assoc.
    rewrite <- Hsplit. reflexivity. }
  exists b'.
  exists (instructions_ b
          ++ map MaterializeObject (flagged_in_chain env)
          ++ FrameStart :: numbered 0 start).
  exists (0 + Z.of_nat (length start)).
  exists (numbered (0 + Z.of_nat (length start) + 4
                    + Z.of_nat (length (parameters_descending inner)))
                   (after ++ outermost_tail env)).
  split; [exact Hrun|].
  rewrite Hinstrs, Hframe, numbered_app.
  rewrite <- !app_assoc. do 2 f_equal.
  rewrite <- app_comm_cons. f_equal. f_equal.
  cbn [app numbered]. rewrite numbered_app.
  repeat first [reflexivity | lia | f_equal].
Qed.

Lemma has_value_map_copy_of (slots : list (Value * Location)) :
  Forall (fun d => has_value d = true) (map copy_of slots).
Proof. induction slots; constructor; auto. Qed.

Lemma has_value_arguments (mats : list MaterializeObjectInstr) :
  Forall (fun d => has_value d = true) (materialization_arguments mats).
Proof.
  unfold materialization_arguments.
  induction mats as [|mat mats IH]; simpl; [constructor|].
  apply Forall_app. split; [|exact IH].
  induction (mat_inputs mat); constructor; auto.
Qed.

Lemma has_value_outer_frames (current : Environment) :
  forall previous : Environment,
    Forall (fun d => has_value d = true) (outer_frames previous current).
Proof.
  induction current as [current Hlast|current next Hnext IH] using chain_ind;
    intros previous; rewrite outer_frames_unfold;
    repeat (apply Forall_app; split);
    try apply has_value_map_copy_of; repeat constructor.
  - rewrite Hlast. constructor.
  - rewrite Hnext. apply IH.
Qed.

Lemma lookup_behind {A} (a b c : list A) :
  (a ++ b ++ c) !! (length a + length b)%nat = c !! 0%nat.
Proof.
  rewrite lookup_app_r by lia. rewrite lookup_app_r by lia. f_equal. lia.
Qed.

(** X5: a copy without a value is put down only for a lazy deoptimization
    with result: then it is the slot right behind the materialization
    arguments and reads the stack slot [FrameSlotForVariableIndex(-stack
    height)] relative to the frame pointer; otherwise every copy of the frame
    names its value. *)
Theorem CreateDeoptInfo_result_slot
    (info : CompilerDeoptInfo) (compiler : FlowGraphCompiler)
    (deopt_table : Array) (env : Environment) (b : DeoptInfoBuilder) :
  runs_through info env ->
  let arguments := materialization_arguments
                     (materializations_ b ++ flagged_in_chain env) in
  exists b' descriptors,
    CreateDeoptInfo info compiler deopt_table b = packed deopt_table b'
    /\ instructions_ b'
       = instructions_ b
         ++ map MaterializeObject (flagged_in_chain env)
         ++ FrameStart :: numbered 0 descriptors
    /\ (lazy_deopt_with_result_ info = true ->
          descriptors !! (4 + length arguments)%nat
          = Some (Copy None
                    (Location_StackSlot FPREG
                       (FrameSlotForVariableIndex compiler_frame_layout
                          (- AllocateIncomingParametersRecursive env
                               (StackSize compiler))))))
    /\ (lazy_deopt_with_result_ info = false ->
          forall loc, ~ In (Copy None loc) descriptors).
Proof.
  intros Hruns arguments.
  destruct (CreateDeoptInfo_entry info compiler deopt_table env b Hruns)
    as (b' & Hrun & Hinstrs).
  exists b'. eexists. split; [exact Hrun|]. split; [exact Hinstrs|].
  fold arguments. unfold frame_descriptors, frames_after_arguments.
  split; intros Hlazy.
  - change (4 + length arguments)%nat
      with (length [CallerFp;
                    ReturnAddress (function env) (info_deopt_id info);
                    PcMarker Function_null;
                    Constant (Object_function Function_null)]
            + length arguments)%nat.
    rewrite <- !app_assoc, lookup_behind.
    unfold lazy_result_copy. rewrite Hlazy. reflexivity.
  - intros loc Hin.
    assert (Hall : Forall (fun d => has_value d = true)
                     ([CallerFp;
                       ReturnAddress (function env) (info_deopt_id info);
                       PcMarker Function_null;
                       Constant (Object_function Function_null)]
                      ++ arguments
                      ++ (lazy_result_copy info compiler env
                          ++ locals_descending env ++ [CallerFp]
                          ++ match outer env with
                             | None => []
                             | Some next => outer_frames env next
                             end)
                      ++ outermost_tail env)).
    { unfold lazy_result_copy, outermost_tail. rewrite Hlazy.
      repeat (apply Forall_app; split);
        try apply has_value_map_copy_of;
        try apply has_value_arguments; repeat constructor.
      destruct (outer env); [apply has_value_outer_frames | constructor]. }
    rewrite Forall_forall in Hall.
    apply list_elem_of_In in Hin. apply Hall in Hin. discriminate Hin.
Qed.

Lemma copies_app (a b : list SlotDescriptor) :
  copies (a ++ b) = copies a ++ copies b.
Proof.
  induction a as [|d a IH]; simpl; [reflexivity|].
  destruct (is_Copy d); simpl; now rewrite IH.
Qed.

Lemma copies_all (ds : list SlotDescriptor) :
  Forall (fun d => is_Copy d = true) ds -> copies ds = ds.
Proof.
  induction 1 as [|d ds Hd _ IH]; simpl; [reflexivity|].
  now rewrite Hd, IH.
Qed.

(** The parameters and the locals of an environment are its slots. *)
Lemma parameters_and_locals (env : Environment) :
  Permutation (parameters_descending env ++ locals_descending env)
              (map copy_of (values_ env)).
Proof.
  unfold parameters_descending, locals_descending.
  rewrite <- map_app. apply Permutation_map.
  rewrite <- (take_drop (fixed_parameter_count env) (values_ env)) at 3.
  apply Permutation_app; symmetry; apply Permutation_rev.
Qed.

Lemma outer_frames_copies (current : Environment) :
  forall previous : Environment,
    Permutation (copies (outer_frames previous current)
                 ++ parameters_descending (outermost current))
                (parameters_descending previous ++ chain_copies current).
Proof.
  induction current as [current Hlast|current next Hnext IH] using chain_ind;
    intros previous;
    rewrite outer_frames_unfold, outermost_unfold, chain_copies_unfold;
    rewrite !copies_app;
    rewrite (copies_all _ (copies_only_parameters previous));
    rewrite (copies_all _ (copies_only_locals current));
    cbn [copies is_Copy app];
    rewrite <- !app_assoc; apply Permutation_app_head.
  - rewrite Hlast. cbn [copies app]. rewrite app_nil_r.
    rewrite (Permutation_app_comm (locals_descending current)).
    apply parameters_and_locals.
  - rewrite Hnext. rewrite (IH current).
    rewrite app_assoc.
    rewrite (Permutation_app_comm (locals_descending current)).
    rewrite parameters_and_locals. reflexivity.
Qed.

(** X6: the copies of the frame are, up to their order, the materialization
    arguments, the result slot of a lazy deoptimization, and one copy for
    each slot of each environment of the chain: no value of the chain is left
    out and none is copied twice. *)
Theorem CreateDeoptInfo_copies_every_slot_once
    (info : CompilerDeoptInfo) (compiler : FlowGraphCompiler)
    (deopt_table : Array) (env : Environment) (b : DeoptInfoBuilder) :
  runs_through info env ->
  exists b' descriptors,
    CreateDeoptInfo info compiler deopt_table b = packed deopt_table b'
    /\ instructions_ b'
       = instructions_ b
         ++ map MaterializeObject (flagged_in_chain env)
         ++ FrameStart :: numbered 0 descriptors
    /\ Permutation
         (copies descriptors)
         (materialization_arguments
            (materializations_ b ++ flagged_in_chain env)
          ++ lazy_result_copy info compiler env
          ++ chain_copies env).
Proof.
  intros Hruns.
  destruct (CreateDeoptInfo_entry info compiler deopt_table env b Hruns)
    as (b' & Hrun & Hinstrs).
  exists b'. eexists. split; [exact Hrun|]. split; [exact Hinstrs|].
  unfold frame_descriptors, frames_after_arguments, outermost_tail.
  rewrite !copies_app.
  rewrite (copies_all _ (copies_only_arguments _)).
  rewrite (copies_all _ (copies_only_lazy info compiler env)).
  rewrite (copies_all _ (copies_only_locals env)).
  rewrite (copies_all _ (copies_only_parameters (outermost env))).
  cbn [copies is_Copy app].
  apply Permutation_app_head. rewrite <- !app_assoc.
  apply Permutation_app_head.
  rewrite outermost_unfold, chain_copies_unfold.
  destruct (outer env) as [next|].
  - rewrite (outer_frames_copies next env).
    rewrite app_assoc.
    rewrite (Permutation_app_comm (locals_descending env)).
    rewrite parameters_and_locals. reflexivity.
  - cbn [copies app]. rewrite app_nil_r.
    rewrite (Permutation_app_comm (locals_descending env)).
    apply parameters_and_locals.
Qed.

(** *** When [CreateDeoptInfo] stops *)










(** *** More on the move emitters *)

(** Every successful [EmitMove], by cases on the operand. *)
Lemma EmitMove_Done (r r' : ParallelMoveResolver) (index : nat) :
  EmitMove index r = Done tt r' ->
  exists move code,
    moves_ r !! index = Some move
    /\ r' = after_move r index code
    /\ (length code = 1 \/ length code = 2)%nat
    /\ listed_as_supported move = true
    /\ unboxed_constant_is_double (src move) = true.
Proof.
  unfold EmitMove, listed_as_supported.
  unfold bind at 1. unfold move_at.
  destruct (moves_ r !! index) as [move|] eqn:Hmove; [|discriminate].
  intros Hrun. exists move.
  destruct (src move) as [rs|base ix|[[|bits|f|id] []]| | |],
           (dest move) as [rd|? ?|?| | |];
    unfold bind, ASSERT, on_compiler, emit, modify, update_move, ret,
      Bailout, DoublesBitEqual, fail_assert in Hrun;
    simpl in Hrun; try discriminate Hrun;
    try (destruct (base =? FPREG); simpl in Hrun; [|discriminate Hrun];
         destruct (ix >? param_end_from_fp compiler_frame_layout);
         simpl in Hrun; [|discriminate Hrun]);
    try (destruct (bits =? positive_zero_bits); simpl in Hrun);
    injection Hrun as <-;
    eexists; (split; [reflexivity|]);
    (split; [unfold after_move, set_assembler; simpl;
             rewrite <- ?app_assoc; reflexivity|]);
    simpl; auto.
Qed.

(** X8: a successful [EmitMove] appends one or two bytecodes to the code
    emitted so far, marks the operand at [index] eliminated, and changes
    nothing else: the other operands of the batch, the tables of the
    compiler and the environments stay as they were. *)
Theorem EmitMove_effect (r r' : ParallelMoveResolver) (index : nat) :
  EmitMove index r = Done tt r' ->
  (exists code,
     assembler (compiler_ r') = assembler (compiler_ r) ++ code
     /\ (1 <= length code <= 2)%nat)
  /\ (exists move,
        moves_ r !! index = Some move
        /\ moves_ r' !! index = Some (Eliminate move))
  /\ (forall i, i <> index -> moves_ r' !! i = moves_ r !! i)
  /\ length (moves_ r') = length (moves_ r)
  /\ deopt_infos_ (compiler_ r') = deopt_infos_ (compiler_ r)
  /\ pc_descriptors_ (compiler_ r') = pc_descriptors_ (compiler_ r)
  /\ safepoints_ (compiler_ r') = safepoints_ (compiler_ r)
  /\ pending_deoptimization_env_ (compiler_ r')
     = pending_deoptimization_env_ (compiler_ r)
  /\ environments_ (compiler_ r') = environments_ (compiler_ r).
Proof.
  intros Hrun.
  destruct (EmitMove_Done r r' index Hrun)
    as (move & code & Hmove & -> & Hcode & _).
  unfold after_move. cbn [moves_ compiler_].
  split; [exists code; split; [reflexivity | lia]|].
  split; [exists move; split; [exact Hmove|];
          now rewrite list_lookup_alter_eq, Hmove|].
  split; [intros i Hi; now rewrite list_lookup_alter_ne by congruence|].
  split; [apply length_alter|].
  repeat split.
Qed.

Lemma EmitMove_supported (r : ParallelMoveResolver) (index : nat)
    (move : MoveOperands) :
  moves_ r !! index = Some move ->
  listed_as_supported move = true ->
  unboxed_constant_is_double (src move) = true ->
  exists r', EmitMove index r = Done tt r'.
Proof.
  intros Hmove Hlisted Hdouble.
  unfold listed_as_supported in Hlisted. run_EmitMove Hmove.
  destruct (src move) as [rs|base ix|[[|bits|f|id] []]| | |],
           (dest move) as [rd|? ?|?| | |];
    try discriminate Hlisted; try discriminate Hdouble;
    unfold bind, ASSERT, on_compiler, emit, modify, update_move, ret,
      DoublesBitEqual; simpl;
    try (apply andb_true_iff in Hlisted as [-> ->]; simpl);
    try (destruct (bits =? positive_zero_bits); simpl);
    eexists; reflexivity.
Qed.

(** X9: [EmitMove] emits code for an operand exactly when its shape is one
    of the supported ones (a register, a pseudo-register, a constant or a
    stack slot of the argument region as source, a register as destination)
    and, where the constant is used unboxed as a double, the constant is a
    [Double]. *)
Theorem EmitMove_succeeds_exactly
    (r : ParallelMoveResolver) (index : nat) (move : MoveOperands) :
  moves_ r !! index = Some move ->
  (exists r', EmitMove index r = Done tt r')
  <-> listed_as_supported move = true
      /\ unboxed_constant_is_double (src move) = true.
Proof.
  intros Hmove. split.
  - intros [r' Hrun].
    destruct (EmitMove_Done r r' index Hrun)
      as (move' & code & Hmove' & _ & _ & Hlisted & Hdouble).
    rewrite Hmove in Hmove'. injection Hmove' as <-. now split.
  - intros [Hlisted Hdouble]. now apply (EmitMove_supported r index move).
Qed.

(** A constant in another representation than the unboxed double, run. *)
Lemma EmitMove_tagged_constant_run
    (r : ParallelMoveResolver) (index : nat) (move : MoveOperands)
    (c : ConstantInstr) (rd : Register) :
  moves_ r !! index = Some move ->
  src move = Location_Constant c ->
  dest move = Location_Register rd ->
  representation c <> kUnboxedDouble ->
  EmitMove index r = Done tt (after_move r index [LoadConstant rd (value c)]).
Proof.
  intros Hmove Hsrc Hdest Hrep. run_EmitMove Hmove. rewrite Hsrc, Hdest.
  destruct c as [obj rep]. simpl in Hrep.
  destruct rep; try contradiction; reflexivity.
Qed.

(** X10: a constant that is not used in the unboxed double representation
    is always loaded as a literal, with no unboxing and no self-XOR, also
    when it is a [Double] with the bit pattern of positive zero: the code of
    the compiler after the move is what was there followed by one
    [LoadConstant]. *)
Theorem EmitMove_tagged_constant
    (r : ParallelMoveResolver) (index : nat) (move : MoveOperands)
    (c : ConstantInstr) (rd : Register) :
  moves_ r !! index = Some move ->
  src move = Location_Constant c ->
  dest move = Location_Register rd ->
  representation c <> kUnboxedDouble ->
  exists r',
    EmitMove index r = Done tt r'
    /\ assembler (compiler_ r')
       = assembler (compiler_ r) ++ [LoadConstant rd (value c)]
    /\ moves_ r' !! index = Some (Eliminate move).
Proof.
  intros Hmove Hsrc Hdest Hrep.
  apply (after_move_emitted r index move _ Hmove).
  now apply (EmitMove_tagged_constant_run r index move c rd).
Qed.

(** The moves into a register from a register, a stack slot or a
    pseudo-register, run. *)
Lemma EmitMove_register_destination_run
    (r : ParallelMoveResolver) (index : nat) (move : MoveOperands)
    (rd : Register) :
  moves_ r !! index = Some move ->
  dest move = Location_Register rd ->
  (forall rs, src move = Location_Register rs ->
     EmitMove index r = Done tt (after_move r index [Move rd rs]))
  /\ (forall ix, src move = Location_StackSlot FPREG ix ->
        param_end_from_fp compiler_frame_layout < ix ->
        EmitMove index r = Done tt (after_move r index [Move rd (- ix)]))
  /\ (src move = Location_ArgsDescRegister ->
        EmitMove index r
        = Done tt (after_move r index [LoadArgDescriptorOpt rd]))
  /\ (src move = Location_ExceptionRegister ->
        EmitMove index r
        = Done tt (after_move r index [MoveSpecial rd kExceptionSpecialIndex]))
  /\ (src move = Location_StackTraceRegister ->
        EmitMove index r
        = Done tt (after_move r index
                     [MoveSpecial rd kStackTraceSpecialIndex])).
Proof.
  intros Hmove Hdest.
  repeat split; intros; run_EmitMove Hmove;
    match goal with H : src move = _ |- _ => rewrite H, Hdest end;
    try reflexivity.
  unfold bind, ASSERT. simpl.
  rewrite Z.eqb_refl. simpl.
  assert (Hgt : (ix >? param_end_from_fp compiler_frame_layout) = true)
    by (apply Z.gtb_lt; lia).
  rewrite Hgt. reflexivity.
Qed.

(** X11: into a register, a register is moved by [Move rd rs]; a stack slot
    of the argument region by [Move] with the negated frame index; the
    arguments descriptor by [LoadArgDescriptorOpt]; the exception and the
    stack trace by [MoveSpecial] with their own special index each.  In each
    case the code of the compiler after the move is what was there followed
    by that one instruction, and the operand is eliminated. *)
Theorem EmitMove_register_destination
    (r : ParallelMoveResolver) (index : nat) (move : MoveOperands)
    (rd : Register) :
  moves_ r !! index = Some move ->
  dest move = Location_Register rd ->
  (forall rs, src move = Location_Register rs ->
     exists r',
       EmitMove index r = Done tt r'
       /\ assembler (compiler_ r') = assembler (compiler_ r) ++ [Move rd rs]
       /\ moves_ r' !! index = Some (Eliminate move))
  /\ (forall ix, src move = Location_StackSlot FPREG ix ->
        param_end_from_fp compiler_frame_layout < ix ->
        exists r',
          EmitMove index r = Done tt r'
          /\ assembler (compiler_ r')
             = assembler (compiler_ r) ++ [Move rd (- ix)]
          /\ moves_ r' !! index = Some (Eliminate move))
  /\ (src move = Location_ArgsDescRegister ->
        exists r',
          EmitMove index r = Done tt r'
          /\ assembler (compiler_ r')
             = assembler (compiler_ r) ++ [LoadArgDescriptorOpt rd]
          /\ moves_ r' !! index = Some (Eliminate move))
  /\ (src move = Location_ExceptionRegister ->
        exists r',
          EmitMove index r = Done tt r'
          /\ assembler (compiler_ r')
             = assembler (compiler_ r) ++
               [MoveSpecial rd kExceptionSpecialIndex]
          /\ moves_ r' !! index = Some (Eliminate move))
  /\ (src move = Location_StackTraceRegister ->
        exists r',
          EmitMove index r = Done tt r'
          /\ assembler (compiler_ r')
             = assembler (compiler_ r) ++
               [MoveSpecial rd kStackTraceSpecialIndex]
          /\ moves_ r' !! index = Some (Eliminate move)).
Proof.
  intros Hmove Hdest.
  destruct (EmitMove_register_destination_run r index move rd Hmove Hdest)
    as (Hregister & Hslot & Hargs & Hexception & Hstacktrace).
  split; [|split; [|split; [|split]]].
  - intros rs Hsrc.
    exact (after_move_emitted r index move _ Hmove (Hregister rs Hsrc)).
  - intros ix Hsrc Hix.
    exact (after_move_emitted r index move _ Hmove (Hslot ix Hsrc Hix)).
  - intros Hsrc.
    exact (after_move_emitted r index move _ Hmove (Hargs Hsrc)).
  - intros Hsrc.
    exact (after_move_emitted r index move _ Hmove (Hexception Hsrc)).
  - intros Hsrc.
    exact (after_move_emitted r index move _ Hmove (Hstacktrace Hsrc)).
Qed.

(** [EmitSwap] on a register-to-register operand, as a whole. *)
Lemma EmitSwap_run (r : ParallelMoveResolver) (index : nat)
    (move : MoveOperands) (rs rd : Register) :
  moves_ r !! index = Some move ->
  src move = Location_Register rs ->
  dest move = Location_Register rd ->
  exists moves',
    EmitSwap index r
    = Done tt (mkParallelMoveResolver
                 moves'
                 (set_assembler (assembler (compiler_ r) ++ [Swap rd rs])
                                (compiler_ r)))
    /\ length moves' = length (moves_ r)
    /\ forall j,
         moves' !! j
         = rewritten (Location_Register rs) (Location_Register rd)
             <$> alter Eliminate index (moves_ r) !! j.
Proof.
  intros Hmove Hsrc Hdest.
  unfold EmitSwap.
  rewrite (bind_Done _ _ _ _ _ (move_at_Some _ _ _ Hmove)).
  rewrite Hsrc, Hdest.
  unfold bind at 1. simpl ASSERT. cbv iota beta.
  unfold bind at 1. simpl reg. unfold ret at 1.
  unfold bind at 1. unfold ret at 1.
  unfold bind at 1. unfold on_compiler, emit, modify. simpl.
  unfold bind at 1. unfold update_move, modify. simpl.
  unfold bind at 1. unfold get. simpl.
  destruct (fix_sources_run (Location_Register rs) (Location_Register rd)
              (length (alter Eliminate index (moves_ r))) 0
              (mkParallelMoveResolver
                 (alter Eliminate index (moves_ r))
                 (set_assembler (assembler (compiler_ r) ++ [Swap rd rs])
                                (compiler_ r))))
    as (moves' & Hrun & Hlength & Hlookup); [simpl; lia|].
  simpl in Hrun, Hlookup, Hlength. rewrite Hrun.
  exists moves'. split; [reflexivity|].
  split; [now rewrite Hlength, length_alter|].
  intros j. rewrite Hlookup. case_decide as Hj; [reflexivity|].
  rewrite (lookup_ge_None_2 _ j); [reflexivity|]. lia.
Qed.

Lemma rewritten_keeps (source destination : Location)
    (other : MoveOperands) :
  dest (rewritten source destination other) = dest other
  /\ eliminated (rewritten source destination other) = eliminated other
  /\ (eliminated other = true
      \/ (src other <> source /\ src other <> destination) ->
      rewritten source destination other = other).
Proof.
  unfold rewritten, Blocks, Location_Equals.
  destruct (eliminated other) eqn:Hel; simpl.
  - repeat split; auto.
  - destruct (bool_decide (src other = source)) eqn:Hs;
      [|destruct (bool_decide (src other = destination)) eqn:Hd]; simpl;
      repeat split; try assumption;
      intros [Habs|[Hns Hnd]]; try discriminate.
    + apply bool_decide_eq_true_1 in Hs. contradiction.
    + apply bool_decide_eq_true_1 in Hd. contradiction.
Qed.

(** X12: [EmitSwap] on a register-to-register operand keeps the batch as
    long as it was, changes of every other operand at most the source, and
    leaves untouched every operand that is eliminated or reads neither of
    the two swapped registers; of the compiler it changes only the emitted
    code. *)
Theorem EmitSwap_leaves_the_rest
    (r : ParallelMoveResolver) (index : nat) (move : MoveOperands)
    (rs rd : Register) :
  moves_ r !! index = Some move ->
  src move = Location_Register rs ->
  dest move = Location_Register rd ->
  exists r',
    EmitSwap index r = Done tt r'
    /\ length (moves_ r') = length (moves_ r)
    /\ compiler_ r'
       = set_assembler (assembler (compiler_ r) ++ [Swap rd rs]) (compiler_ r)
    /\ forall (i : nat) (other : MoveOperands),
         i <> index ->
         moves_ r !! i = Some other ->
         exists other',
           moves_ r' !! i = Some other'
           /\ dest other' = dest other
           /\ eliminated other' = eliminated other
           /\ (eliminated other = true
               \/ (src other <> src move /\ src other <> dest move) ->
               other' = other).
Proof.
  intros Hmove Hsrc Hdest.
  destruct (EmitSwap_run r index move rs rd Hmove Hsrc Hdest)
    as (moves' & Hrun & Hlength & Hlookup).
  eexists. split; [exact Hrun|]. cbn [moves_ compiler_].
  split; [exact Hlength|]. split; [reflexivity|].
  intros i other Hne Hother.
  rewrite Hlookup, list_lookup_alter_ne, Hother by congruence.
  eexists. split; [reflexivity|].
  rewrite Hsrc, Hdest. apply rewritten_keeps.
Qed.

(** X13: when another operand that is not eliminated moves the destination
    of the swapped operand back into its source (the two close a cycle of
    length two), [EmitSwap] turns it into a move of a register onto
    itself. *)
Theorem EmitSwap_closes_two_cycle
    (r : ParallelMoveResolver) (index i : nat) (move other : MoveOperands)
    (rs rd : Register) :
  moves_ r !! index = Some move ->
  src move = Location_Register rs ->
  dest move = Location_Register rd ->
  i <> index ->
  moves_ r !! i = Some other ->
  eliminated other = false ->
  src other = Location_Register rd ->
  dest other = Location_Register rs ->
  exists r',
    EmitSwap index r = Done tt r'
    /\ moves_ r' !! i
       = Some (mkMoveOperands (Location_Register rs) (Location_Register rs)
                              false).
Proof.
  intros Hmove Hsrc Hdest Hne Hother Hpending Hosrc Hodest.
  destruct (EmitSwap_run r index move rs rd Hmove Hsrc Hdest)
    as (moves' & Hrun & _ & Hlookup).
  eexists. split; [exact Hrun|]. cbn [moves_].
  rewrite Hlookup, list_lookup_alter_ne, Hother by congruence. simpl.
  unfold rewritten, Blocks, Location_Equals, set_src.
  rewrite Hpending, Hosrc, Hodest. simpl.
  destruct (bool_decide (Location_Register rd = Location_Register rs)) eqn:E.
  - apply bool_decide_eq_true_1 in E. injection E as ->. reflexivity.
  - rewrite bool_decide_eq_true_2 by reflexivity. reflexivity.
Qed.

(** X14: [EmitSwap] never bails out; it emits the swap exactly when there
    is an operand at [index] and both its source and its destination are
    registers, and stops in a failed assertion otherwise. *)
Theorem EmitSwap_stops_exactly (r : ParallelMoveResolver) (index : nat) :
  ((exists r', EmitSwap index r = Done tt r')
   <-> exists move,
         moves_ r !! index = Some move
         /\ IsRegister (src move) = true
         /\ IsRegister (dest move) = true)
  /\ (EmitSwap index r = AssertionFailed
      \/ exists r', EmitSwap index r = Done tt r').
Proof.
  destruct (moves_ r !! index) as [move|] eqn:Hmove.
  - destruct (IsRegister (src move) && IsRegister (dest move)) eqn:Hregs.
    + apply andb_true_iff in Hregs as [Hs Hd].
      destruct (src move) as [rs|? ?|?| | |] eqn:Hsrc; try discriminate Hs.
      destruct (dest move) as [rd|? ?|?| | |] eqn:Hdest; try discriminate Hd.
      destruct (EmitSwap_run r index move rs rd Hmove Hsrc Hdest)
        as (moves' & Hrun & _).
      split; [split|]; eauto.
      intros _. exists move. rewrite Hsrc, Hdest. now repeat split.
    + assert (Hfail : EmitSwap index r = AssertionFailed).
      { unfold EmitSwap.
        rewrite (bind_Done _ _ _ _ _ (move_at_Some _ _ _ Hmove)).
        cbv zeta. unfold bind at 1. now rewrite Hregs. }
      split; [split|now left].
      * intros [r' Hrun]. congruence.
      * intros (move' & Heq & Hs & Hd). injection Heq as <-.
        rewrite Hs, Hd in Hregs. discriminate Hregs.
  - assert (Hfail : EmitSwap index r = AssertionFailed)
      by (unfold EmitSwap, bind, move_at; now rewrite Hmove).
    split; [split|now left].
    + intros [r' Hrun]. congruence.
    + intros (move & Heq & _). discriminate Heq.
Qed.

(** *** More on the accessors, the intrinsic mode and class ids *)

Lemma GenerateInlinedGetter_outcome (offset : Z) (c : FlowGraphCompiler) :
  GenerateInlinedGetter offset c
  = if Z.rem offset kWordSize =? 0
    then Done tt
           (set_assembler
              (assembler c
               ++ [Move 0 (- (1 + param_end_from_fp compiler_frame_layout))]
               ++ (if IsInt 8 (Z.quot offset kWordSize)
                   then [LoadField 0 0 (Z.quot offset kWordSize)]
                   else [LoadFieldExt 0 0; Nop (Z.quot offset kWordSize)])
               ++ [Return 0]) c)
    else AssertionFailed.
Proof.
  unfold GenerateInlinedGetter, bind, ASSERT, emit, modify. simpl.
  destruct (Z.rem offset kWordSize =? 0); [|reflexivity].
  destruct (IsInt 8 (Z.quot offset kWordSize)); simpl;
    unfold set_assembler; simpl; now rewrite <- !app_assoc.
Qed.

Lemma GenerateInlinedSetter_outcome (offset : Z) (c : FlowGraphCompiler) :
  GenerateInlinedSetter offset c
  = if Z.rem offset kWordSize =? 0
    then Done tt
           (set_assembler
              (assembler c
               ++ [Move 0 (- (2 + param_end_from_fp compiler_frame_layout));
                   Move 1 (- (1 + param_end_from_fp compiler_frame_layout))]
               ++ (if IsInt 8 (Z.quot offset kWordSize)
                   then [StoreField 0 (Z.quot offset kWordSize) 1]
                   else [StoreFieldExt 0 1; Nop (Z.quot offset kWordSize)])
               ++ [LoadConstant 0 Object_null; Return 0]) c)
    else AssertionFailed.
Proof.
  unfold GenerateInlinedSetter, bind, ASSERT, emit, modify. simpl.
  destruct (Z.rem offset kWordSize =? 0); [|reflexivity].
  destruct (IsInt 8 (Z.quot offset kWordSize)); simpl;
    unfold set_assembler; simpl; now rewrite <- !app_assoc.
Qed.

(** X15: the accessor emitters never bail out; each stops in a failed
    assertion exactly when the byte offset is not a multiple of the word
    size, and otherwise ends normally with the compiler changed in its
    emitted code only. *)
Theorem inlined_accessors_stop_exactly (offset : Z) (c : FlowGraphCompiler) :
  (GenerateInlinedGetter offset c = AssertionFailed
   <-> Z.rem offset kWordSize <> 0)
  /\ (GenerateInlinedSetter offset c = AssertionFailed
      <-> Z.rem offset kWordSize <> 0)
  /\ (Z.rem offset kWordSize = 0 ->
      exists getter setter,
        GenerateInlinedGetter offset c
        = Done tt (set_assembler (assembler c ++ getter) c)
        /\ GenerateInlinedSetter offset c
           = Done tt (set_assembler (assembler c ++ setter) c)).
Proof.
  rewrite GenerateInlinedGetter_outcome, GenerateInlinedSetter_outcome.
  destruct (Z.rem offset kWordSize =? 0) eqn:Haligned.
  - apply Z.eqb_eq in Haligned.
    repeat split; try discriminate; try contradiction; eauto.
  - apply Z.eqb_neq in Haligned.
    repeat split; try assumption; try contradiction; auto.
Qed.

(** X16: for a positive word size and an aligned byte offset, the word
    offset that the accessors emit gives back the byte offset when
    multiplied by the word size, and the compact forms [LoadField] /
    [StoreField] are chosen exactly for byte offsets from [-128] to [127]
    words.  The statement is on the code of the compiler after each
    accessor has returned. *)
Theorem inlined_accessors_field_operand
    (offset : Z) (c : FlowGraphCompiler) :
  0 < kWordSize ->
  Z.rem offset kWordSize = 0 ->
  let words := Z.quot offset kWordSize in
  let param_end := param_end_from_fp compiler_frame_layout in
  words * kWordSize = offset
  /\ exists getter setter load store,
       GenerateInlinedGetter offset c = Done tt getter
       /\ GenerateInlinedSetter offset c = Done tt setter
       /\ assembler getter
          = assembler c ++ [Move 0 (- (1 + param_end))]
            ++ load ++ [Return 0]
       /\ assembler setter
          = assembler c
            ++ [Move 0 (- (2 + param_end)); Move 1 (- (1 + param_end))]
            ++ store
            ++ [LoadConstant 0 Object_null; Return 0]
       /\ ((-128 * kWordSize <= offset <= 127 * kWordSize
            /\ load = [LoadField 0 0 words]
            /\ store = [StoreField 0 words 1])
           \/ ((offset < -128 * kWordSize \/ 127 * kWordSize < offset)
               /\ load = [LoadFieldExt 0 0; Nop words]
               /\ store = [StoreFieldExt 0 1; Nop words])).
Proof.
  intros Hword Haligned words param_end.
  assert (Hoffset : words * kWordSize = offset).
  { pose proof (Z.quot_rem' offset kWordSize) as Hqr.
    rewrite Haligned in Hqr. unfold words. lia. }
  split; [exact Hoffset|].
  rewrite GenerateInlinedGetter_outcome, GenerateInlinedSetter_outcome.
  apply Z.eqb_eq in Haligned. rewrite Haligned. fold words param_end.
  destruct (IsInt 8 words) eqn:Hfits.
  - apply IsInt_8_bounds in Hfits.
    eexists _, _, _, _. split; [reflexivity|]. split; [reflexivity|].
    split; [reflexivity|]. split; [reflexivity|].
    left. split; [nia | now split].
  - assert (Hout : ~ (-128 <= words <= 127)).
    { intros Hin. apply IsInt_8_bounds in Hin. congruence. }
    eexists _, _, _, _. split; [reflexivity|]. split; [reflexivity|].
    split; [reflexivity|]. split; [reflexivity|].
    right. split; [nia | now split].
Qed.

(** X17: outside the intrinsic mode, entering and then leaving it gives the
    compiler back as it was; leaving it without having entered, and entering
    it twice, stop in a failed assertion. *)
Theorem intrinsic_mode_round_trip (c : FlowGraphCompiler) :
  intrinsic_mode c = false ->
  (EnterIntrinsicMode >> ExitIntrinsicMode) c = Done tt c
  /\ ExitIntrinsicMode c = AssertionFailed
  /\ (EnterIntrinsicMode >> EnterIntrinsicMode) c = AssertionFailed
  /\ exists c', EnterIntrinsicMode c = Done tt c' /\ intrinsic_mode c' = true.
Proof.
  intros Hmode. destruct c as [opt mode asm env infos pcs sps].
  simpl in Hmode. subst mode.
  repeat split. eexists. split; reflexivity.
Qed.

(** X18: [ToEmbeddableCid] returns the class id itself, unchanged by the
    cast to 16 bits, when it lies between 0 and 65535, and bails out with
    the text of the instruction otherwise; it never emits code and never
    returns a truncated id. *)
Theorem ToEmbeddableCid_range
    (cid : Z) (instruction : Instruction) (c : FlowGraphCompiler) :
  (0 <= cid < 65536 -> ToEmbeddableCid cid instruction c = Done cid c)
  /\ (cid < 0 \/ 65536 <= cid ->
      ToEmbeddableCid cid instruction c
      = BailedOut (ToCString instruction) c)
  /\ (forall v c',
        ToEmbeddableCid cid instruction c = Done v c' ->
        v = cid /\ 0 <= v < 65536 /\ c' = c).
Proof.
  assert (Hin : 0 <= cid < 65536 ->
                ToEmbeddableCid cid instruction c = Done cid c).
  { intros Hrange. unfold ToEmbeddableCid, IsUint, bind.
    change (2 ^ 16) with 65536.
    destruct (0 <=? cid) eqn:Hlo; [|apply Z.leb_gt in Hlo; lia].
    destruct (cid <? 65536) eqn:Hhi; [|apply Z.ltb_ge in Hhi; lia].
    simpl. unfold ret. f_equal. apply Z.mod_small. lia. }
  assert (Hout : cid < 0 \/ 65536 <= cid ->
                 ToEmbeddableCid cid instruction c
                 = BailedOut (ToCString instruction) c).
  { intros Hrange. unfold ToEmbeddableCid, IsUint, bind.
    change (2 ^ 16) with 65536.
    destruct (0 <=? cid) eqn:Hlo;
      [destruct (cid <? 65536) eqn:Hhi|]; try reflexivity.
    apply Z.leb_le in Hlo. apply Z.ltb_lt in Hhi. lia. }
  split; [exact Hin|]. split; [exact Hout|].
  intros v c' Hrun.
  destruct (Z_lt_dec cid 0) as [Hneg|Hnonneg];
    [rewrite Hout in Hrun by lia; discriminate|].
  destruct (Z_le_dec 65536 cid) as [Hbig|Hsmall];
    [rewrite Hout in Hrun by lia; discriminate|].
  rewrite Hin in Hrun by lia. injection Hrun as <- <-.
  repeat split; lia.
Qed.

Lemma locals_descending_lookup (env : Environment) (j : nat) :
  (j < Length env - fixed_parameter_count env)%nat ->
  exists slot,
    values_ env !! (Length env - 1 - j)%nat = Some slot
    /\ locals_descending env !! j = Some (copy_of slot).
Proof.
  unfold Length, locals_descending. intros Hj.
  destruct (lookup_lt_is_Some_2 (values_ env)
              (length (values_ env) - 1 - j)) as [slot Hslot]; [lia|].
  exists slot. split; [exact Hslot|].
  rewrite rev_alt. change (rev_append ?l []) with (reverse l).
  rewrite list_lookup_fmap, reverse_lookup by (rewrite length_drop; lia).
  rewrite length_drop, lookup_drop.
  replace (fixed_parameter_count env
           + (length (values_ env) - fixed_parameter_count env - S j))%nat
    with (length (values_ env) - 1 - j)%nat by lia.
  now rewrite Hslot.
Qed.

(** X19: behind the header, the materialization arguments and the result
    slot of a lazy deoptimization, the frame holds the copies of the locals
    and outgoing arguments of the innermost environment in descending index
    order, from slot [Length - 1] down to slot [fixed_parameter_count]. *)
Theorem CreateDeoptInfo_innermost_locals
    (info : CompilerDeoptInfo) (compiler : FlowGraphCompiler)
    (deopt_table : Array) (env : Environment) (b : DeoptInfoBuilder) :
  runs_through info env ->
  let start := (4
                + length (materialization_arguments
                            (materializations_ b ++ flagged_in_chain env))
                + (if lazy_deopt_with_result_ info then 1 else 0))%nat in
  exists b' descriptors,
    CreateDeoptInfo info compiler deopt_table b = packed deopt_table b'
    /\ instructions_ b'
       = instructions_ b
         ++ map MaterializeObject (flagged_in_chain env)
         ++ FrameStart :: numbered 0 descriptors
    /\ (forall j,
          (j < Length env - fixed_parameter_count env)%nat ->
          exists slot,
            values_ env !! (Length env - 1 - j)%nat = Some slot
            /\ descriptors !! (start + j)%nat = Some (copy_of slot))
    /\ descriptors !! (start + (Length env - fixed_parameter_count env))%nat
       = Some CallerFp.
Proof.
  intros Hruns start.
  destruct (CreateDeoptInfo_entry info compiler deopt_table env b Hruns)
    as (b' & Hrun & Hinstrs).
  exists b'. eexists. split; [exact Hrun|]. split; [exact Hinstrs|].
  set (header := [CallerFp; ReturnAddress (function env) (info_deopt_id info);
                  PcMarker Function_null;
                  Constant (Object_function Function_null)]).
  set (arguments := materialization_arguments
                      (materializations_ b ++ flagged_in_chain env)) in *.
  assert (Hframe : frame_descriptors info compiler env
                     (materializations_ b ++ flagged_in_chain env)
                   = (header ++ arguments ++ lazy_result_copy info compiler env)
                     ++ locals_descending env
                     ++ [CallerFp]
                     ++ match outer env with
                        | None => []
                        | Some next => outer_frames env next
                        end ++ outermost_tail env).
  { unfold frame_descriptors, frames_after_arguments.
    fold header arguments. now rewrite <- !app_assoc. }
  assert (Hstart : length (header ++ arguments
                           ++ lazy_result_copy info compiler env) = start).
  { rewrite !length_app. unfold start, lazy_result_copy. fold arguments.
    destruct (lazy_deopt_with_result_ info); simpl; lia. }
  rewrite Hframe. split.
  - intros j Hj.
    destruct (locals_descending_lookup env j Hj) as (slot & Hslot & Hcopy).
    exists slot. split; [exact Hslot|].
    rewrite lookup_app_r by lia.
    rewrite lookup_app_l by (rewrite length_locals_descending; lia).
    rewrite <- Hcopy. f_equal. lia.
  - rewrite lookup_app_r by lia.
    rewrite lookup_app_r by (rewrite length_locals_descending; lia).
    rewrite length_locals_descending, Hstart.
    replace (start + (Length env - fixed_parameter_count env) - start
             - (Length env - fixed_parameter_count env))%nat
      with 0%nat by lia.
    reflexivity.
Qed.

End Dbc.

(* ================================================================== *)
(** ** Concrete runs                                                   *)
(* ================================================================== *)

Local Open Scope Z_scope.

Example CreateDeoptInfo_example :
  CreateDeoptInfo example_FPREG example_layout example_StackSize
                  example_Allocate example_pack
                  example_info example_compiler [] example_builder
  = Done (TypedData_packed example_entry) (mkDeoptInfoBuilder [] [] 1).
Proof. vm_compute. reflexivity. Qed.

(** The entry of a null info. *)
Lemma CreateDeoptInfo_absent_chain_returns_null_witness :
  deopt_env_ example_null_info = None
  /\ exists builder',
       CreateDeoptInfo example_FPREG example_layout example_StackSize
                       example_Allocate example_pack
                       example_null_info example_compiler [] example_builder
         = Done TypedData_null builder'
       /\ instructions_ builder' = instructions_ example_builder.
Proof.
  split; [reflexivity|].
  apply (CreateDeoptInfo_absent_chain_returns_null
           example_FPREG example_layout example_StackSize example_Allocate
           example_pack example_null_info example_compiler [] example_builder).
  reflexivity.
Defined.

Lemma CreateDeoptInfo_absent_chain_counts_entry_witness :
  deopt_env_ example_null_info = None
  /\ exists data,
       CreateDeoptInfo example_FPREG example_layout example_StackSize
                       example_Allocate example_pack
                       example_null_info example_compiler []
                       (mkDeoptInfoBuilder [FrameStart] [example_mat] 6)
         = Done data (mkDeoptInfoBuilder [FrameStart] [example_mat] (6 + 1)).
Proof.
  split; [reflexivity|].
  apply (CreateDeoptInfo_absent_chain_counts_entry
           example_FPREG example_layout example_StackSize example_Allocate
           example_pack example_null_info example_compiler []
           (mkDeoptInfoBuilder [FrameStart] [example_mat] 6)).
  reflexivity.
Defined.

(** The accessors for a field at byte offset 16: word offset 2 fits. *)
Lemma inlined_accessors_compact_or_extended_witness :
  Z.rem 16 example_kWordSize = 0
  /\ exists getter setter,
       GenerateInlinedGetter example_kWordSize example_layout 16
                             example_compiler
       = Done tt getter
       /\ GenerateInlinedSetter example_kWordSize example_layout 16
                                example_compiler
          = Done tt setter
       /\ assembler getter
          = [Move 0 1; Move 0 (-5); LoadField 0 0 2; Return 0]
       /\ assembler setter
          = [Move 0 1; Move 0 (-6); Move 1 (-5); StoreField 0 2 1;
             LoadConstant 0 Object_null; Return 0].
Proof.
  split; [reflexivity|].
  destruct (inlined_accessors_compact_or_extended
              example_kWordSize example_layout 16 example_compiler eq_refl)
    as (getter & setter & Hgetter & Hsetter & Hcompact & _).
  destruct Hcompact as [Hload Hstore]; [vm_compute; split; discriminate|].
  exists getter, setter.
  split; [exact Hgetter|]. split; [exact Hsetter|].
  split; [exact Hload | exact Hstore].
Defined.

(** A call with one argument and a result, recorded while optimizing: the
    pending environment is the second of the zone. *)
Lemma RecordAfterCallHelper_bookkeeping_witness :
  (is_optimizing example_compiler = true ->
   exists p, pending_deoptimization_env_ example_compiler = Some p
             /\ is_Some (environments_ example_compiler !! p))
  /\ exists c',
       RecordAfterCallHelper example_CodeSize 7 40 1 kHasResult example_locs
                             example_compiler
         = Done tt c'
       /\ safepoints_ c' = [(4, example_locs)]
       /\ environments_ c' = [example_outer; DropArguments 1 example_inner]
       /\ deopt_infos_ c'
          = [mkCompilerDeoptInfoRef 41 kDeoptAtCall (Some 1%nat) true]
       /\ pc_descriptors_ c' = [mkPcDescriptor kOther 4 41 7].
Proof.
  assert (Hpending :
            is_optimizing example_compiler = true ->
            exists p, pending_deoptimization_env_ example_compiler = Some p
                      /\ is_Some (environments_ example_compiler !! p))
    by (intros _; exists 1%nat; split; [reflexivity|eexists; reflexivity]).
  split; [exact Hpending|].
  destruct (RecordAfterCallHelper_bookkeeping
              example_CodeSize 7 40 1 kHasResult example_locs example_compiler
              Hpending)
    as (c' & Hrun & Hsafepoints & _ & _ & Hopt).
  cbn [is_optimizing example_compiler] in Hopt.
  destruct Hopt as (p & env & info & Hp & _ & _ & Henvs & _ & _ & Hinfos
                    & Hid & Hreason & Hptr & Hlazy & _ & _ & Hpcs).
  injection Hp as <-.
  exists c'. split; [exact Hrun|]. split; [exact Hsafepoints|].
  split; [rewrite Henvs; reflexivity|]. split; [|exact Hpcs].
  rewrite Hinfos. destruct info as [id rs ptr lz]. simpl in *.
  subst id rs ptr. rewrite (proj2 Hlazy eq_refl). reflexivity.
Defined.

(** Two calls recorded on one pending environment of three slots, the first
    with one argument, the second with another: the info of the first call
    points to the environment the second call shortens, so in the end both
    infos read one slot. *)
Example RecordAfterCallHelper_shared_environment :
  let three := mkEnvironment
                 [(mkValue 1%nat None, Location_Register 0);
                  (mkValue 2%nat None, Location_Register 1);
                  (mkValue 3%nat None, Location_Register 2)]
                 0%nat (Function_ref 1%nat) 40 None in
  let c := mkFlowGraphCompiler true false [] [three] (Some 0%nat) [] [] [] in
  exists c1 c2 first second,
    RecordAfterCallHelper example_CodeSize 7 40 1 kNoResult example_locs c
      = Done tt c1
    /\ RecordAfterCallHelper example_CodeSize 7 42 1 kNoResult example_locs c1
       = Done tt c2
    /\ deopt_infos_ c1 = [first]
    /\ deopt_infos_ c2 = [first; second]
    /\ option_map Length (deopt_env_ (deref (environments_ c1) first))
       = Some 2%nat
    /\ option_map Length (deopt_env_ (deref (environments_ c2) first))
       = Some 1%nat
    /\ option_map Length (deopt_env_ (deref (environments_ c2) second))
       = Some 1%nat.
Proof.
  intros three c. do 4 eexists.
  split; [vm_compute; reflexivity|].
  split; [vm_compute; reflexivity|].
  repeat split.
Qed.

(** Positive zero and negative zero into register 3. *)
Lemma EmitMove_double_constant_witness :
  let plus := example_resolver
                [mkMoveOperands (example_double positive_zero_bits)
                                (Location_Register 3) false] in
  let minus := example_resolver
                 [mkMoveOperands (example_double negative_zero_bits)
                                 (Location_Register 3) false] in
  exists plus' minus',
    EmitMove example_FPREG example_layout 0 plus = Done tt plus'
    /\ assembler (compiler_ plus') = [Move 0 1; BitXor 3 3 3]
    /\ EmitMove example_FPREG example_layout 0 minus = Done tt minus'
    /\ assembler (compiler_ minus')
       = [Move 0 1; LoadConstant 3 (Object_double negative_zero_bits);
          UnboxDouble 3 3].
Proof.
  intros plus minus.
  destruct (EmitMove_double_constant example_FPREG example_layout plus 0
              _ positive_zero_bits 3 eq_refl eq_refl eq_refl)
    as (plus' & Hplus & _ & Hzero & _ & _).
  destruct (EmitMove_double_constant example_FPREG example_layout minus 0
              _ negative_zero_bits 3 eq_refl eq_refl eq_refl)
    as (minus' & Hminus & _ & _ & Hliteral & _).
  exists plus', minus'.
  split; [exact Hplus|]. split; [exact (Hzero eq_refl)|].
  split; [exact Hminus | exact (Hliteral eq_refl)].
Defined.

(** A stack slot to a stack slot. *)
Lemma EmitMove_bailout_witness :
  let r := example_resolver
             [mkMoveOperands (Location_StackSlot example_FPREG 5)
                             (Location_StackSlot example_FPREG 6) false] in
  EmitMove example_FPREG example_layout 0 r = BailedOut "Unsupported move" r.
Proof.
  intros r.
  destruct (EmitMove_bailout example_FPREG example_layout r 0 _ eq_refl)
    as [Hbail _].
  apply Hbail. split; reflexivity.
Defined.

(** The cycle R0 -> R1, R1 -> R0 and a third operand that reads R0: after
    the swap the third operand reads R1. *)
Lemma EmitSwap_rewrites_sources_witness :
  let r := example_resolver
             [mkMoveOperands (Location_Register 0) (Location_Register 1) false;
              mkMoveOperands (Location_Register 1) (Location_Register 0) false;
              mkMoveOperands (Location_Register 0) (Location_Register 2) false]
  in
  exists r',
    EmitSwap 0 r = Done tt r'
    /\ moves_ r' !! 2%nat
       = Some (mkMoveOperands (Location_Register 1) (Location_Register 2) false)
    /\ moves_ r' !! 1%nat
       = Some (mkMoveOperands (Location_Register 0) (Location_Register 0) false).
Proof.
  intros r.
  destruct (EmitSwap_rewrites_sources r 0 _ 0 1 eq_refl eq_refl eq_refl)
    as (r' & Hrun & _ & _ & Hothers).
  exists r'. split; [exact Hrun|]. split.
  - apply (proj1 (Hothers 2%nat _ ltac:(discriminate) eq_refl eq_refl)).
    reflexivity.
  - apply (proj2 (Hothers 1%nat _ ltac:(discriminate) eq_refl eq_refl)).
    reflexivity.
Defined.

Lemma CreateDeoptInfo_materializations_witness :
  runs_through example_info example_inner
  /\ exists b' header rest,
       CreateDeoptInfo example_FPREG example_layout example_StackSize
                       example_Allocate example_pack
                       example_info example_compiler [] example_builder
         = packed example_pack [] b'
       /\ materializations_ b' = [example_mat]
       /\ length header = 4%nat
       /\ instructions_ b'
          = MaterializeObject example_mat
            :: FrameStart
            :: numbered 0 header
            ++ Slot 4 (Copy (Some 7%nat) (Location_Register 3))
            :: rest.
Proof.
  assert (Hruns : runs_through example_info example_inner)
    by (split; [reflexivity | split; [reflexivity | intros _; reflexivity]]).
  split; [exact Hruns|].
  destruct (CreateDeoptInfo_materializations
              example_FPREG example_layout example_StackSize example_Allocate
              example_pack example_info example_compiler [] example_inner
              example_builder Hruns)
    as (b' & header & rest & Hrun & Hmats & Hheader & Hinstrs).
  exists b', header, rest.
  split; [exact Hrun|]. split; [exact Hmats|]. split; [exact Hheader|].
  rewrite Hinstrs, Hmats. reflexivity.
Defined.

Lemma CreateDeoptInfo_innermost_header_witness :
  runs_through example_info example_inner
  /\ exists b' rest,
       CreateDeoptInfo example_FPREG example_layout example_StackSize
                       example_Allocate example_pack
                       example_info example_compiler [] example_builder
         = packed example_pack [] b'
       /\ instructions_ b'
          = [MaterializeObject example_mat;
             FrameStart;
             Slot 0 CallerFp;
             Slot 1 (ReturnAddress (Function_ref 1%nat) 41);
             Slot 2 (PcMarker Function_null);
             Slot 3 (Constant (Object_function Function_null))]
            ++ rest.
Proof.
  assert (Hruns : runs_through example_info example_inner)
    by (split; [reflexivity | split; [reflexivity | intros _; reflexivity]]).
  split; [exact Hruns|].
  destruct (CreateDeoptInfo_innermost_header
              example_FPREG example_layout example_StackSize example_Allocate
              example_pack example_info example_compiler [] example_inner
              example_builder Hruns)
    as (b' & rest & Hrun & Hinstrs).
  exists b', rest. split; [exact Hrun | exact Hinstrs].
Defined.

Lemma CreateDeoptInfo_outermost_frame_witness :
  runs_through example_info example_inner
  /\ exists b' before k,
       CreateDeoptInfo example_FPREG example_layout example_StackSize
                       example_Allocate example_pack
                       example_info example_compiler [] example_builder
         = packed example_pack [] b'
       /\ instructions_ b'
          = before
            ++ [Slot k CallerPc;
                Slot (k + 1) (PcMarker (Function_ref 2%nat));
                Slot (k + 2) (Constant (Object_function (Function_ref 2%nat)));
                Slot (k + 3) (Copy (Some 10%nat) (Location_Register 0))].
Proof.
  assert (Hruns : runs_through example_info example_inner)
    by (split; [reflexivity | split; [reflexivity | intros _; reflexivity]]).
  split; [exact Hruns|].
  destruct (CreateDeoptInfo_outermost_frame
              example_FPREG example_layout example_StackSize example_Allocate
              example_pack example_info example_compiler [] example_inner
              example_builder Hruns)
    as (b' & before & k & Hrun & Hinstrs & _).
  exists b', before, k. split; [exact Hrun | exact Hinstrs].
Defined.

(** *** Where the specification and the code part *)

(** In the entry of [example_info] the copy of the source value of the
    materialization sits at slot 4, behind the frame-start marker. *)
Lemma materialization_copies_counterexample :
  CreateDeoptInfo example_FPREG example_layout example_StackSize
                  example_Allocate example_pack
                  example_info example_compiler [] example_builder
  = Done (TypedData_packed example_entry) (mkDeoptInfoBuilder [] [] 1)
  /\ ~ materializations_and_copies_before_frame_start
         example_inner example_entry.
Proof.
  split; [exact CreateDeoptInfo_example|].
  intros Hclaim.
  destruct (Hclaim example_mat) as [_ Hcopies]; [simpl; auto|].
  destruct (Hcopies (7%nat, Location_Register 3)) as [ix Hin]; [simpl; auto|].
  simpl in Hin. destruct Hin as [Hin|[]]. discriminate Hin.
Qed.

(** In the entry of [example_info] the pc marker of the innermost header
    holds the null handle and no function identity. *)
Lemma innermost_pc_marker_counterexample :
  CreateDeoptInfo example_FPREG example_layout example_StackSize
                  example_Allocate example_pack
                  example_info example_compiler [] example_builder
  = Done (TypedData_packed example_entry) (mkDeoptInfoBuilder [] [] 1)
  /\ ~ header_names_caller_function (Function_ref 1%nat) 41 example_entry.
Proof.
  split; [exact CreateDeoptInfo_example|].
  intros (before & caller & placeholder & rest & Hsplit).
  unfold example_entry in Hsplit.
  repeat (destruct before as [|? before];
          [discriminate Hsplit | injection Hsplit as _ Hsplit]);
  destruct before; discriminate Hsplit.
Qed.

(** A move from the arguments-descriptor pseudo-register to a stack slot is
    not listed as supported, and [EmitMove] stops in the assertion
    [destination.IsRegister()] instead of bailing out. *)
Lemma unlisted_move_counterexample :
  let r := example_resolver
             [mkMoveOperands Location_ArgsDescRegister
                             (Location_StackSlot example_FPREG 5) false] in
  EmitMove example_FPREG example_layout 0 r = AssertionFailed
  /\ ~ unlisted_move_bails_out example_FPREG example_layout r 0.
Proof.
  intros r. split; [reflexivity|].
  intros Hclaim. specialize (Hclaim _ eq_refl eq_refl).
  discriminate Hclaim.
Qed.

(** The same for a stack slot below the argument region. *)
Example EmitMove_slot_below_arguments :
  let r := example_resolver
             [mkMoveOperands (Location_StackSlot example_FPREG 2)
                             (Location_Register 1) false] in
  EmitMove example_FPREG example_layout 0 r = AssertionFailed.
Proof. reflexivity. Qed.

(** *** Runs of the further results *)

Lemma CreateDeoptInfo_slot_indices_witness :
  runs_through example_info example_inner
  /\ exists b' frame,
       CreateDeoptInfo example_FPREG example_layout example_StackSize
                       example_Allocate example_pack
                       example_info example_compiler [] example_builder
         = packed example_pack [] b'
       /\ instructions_ b'
          = MaterializeObject example_mat :: FrameStart :: frame
       /\ forall k i, frame !! k = Some i -> exists d, i = Slot (Z.of_nat k) d.
Proof.
  assert (Hruns : runs_through example_info example_inner)
    by (split; [reflexivity | split; [reflexivity | intros _; reflexivity]]).
  split; [exact Hruns|].
  destruct (CreateDeoptInfo_slot_indices
              example_FPREG example_layout example_StackSize example_Allocate
              example_pack example_info example_compiler [] example_inner
              example_builder Hruns)
    as (b' & frame & Hrun & Hinstrs & Hindices).
  exists b', frame.
  split; [exact Hrun|]. split; [exact Hinstrs | exact Hindices].
Defined.

Lemma CreateDeoptInfo_frame_size_witness :
  runs_through example_info example_inner
  /\ exists b' frame,
       CreateDeoptInfo example_FPREG example_layout example_StackSize
                       example_Allocate example_pack
                       example_info example_compiler [] example_builder
         = packed example_pack [] b'
       /\ instructions_ b'
          = MaterializeObject example_mat :: FrameStart :: frame
       /\ length frame = 18%nat.
Proof.
  assert (Hruns : runs_through example_info example_inner)
    by (split; [reflexivity | split; [reflexivity | intros _; reflexivity]]).
  split; [exact Hruns|].
  destruct (CreateDeoptInfo_frame_size
              example_FPREG example_layout example_StackSize example_Allocate
              example_pack example_info example_compiler [] example_inner
              example_builder Hruns)
    as (b' & frame & Hrun & Hinstrs & Hlength).
  exists b', frame.
  split; [exact Hrun|]. split; [exact Hinstrs | exact Hlength].
Defined.

Lemma CreateDeoptInfo_linkage_counts_witness :
  runs_through example_info example_inner
  /\ exists b' descriptors,
       CreateDeoptInfo example_FPREG example_layout example_StackSize
                       example_Allocate example_pack
                       example_info example_compiler [] example_builder
         = packed example_pack [] b'
       /\ instructions_ b'
          = MaterializeObject example_mat
            :: FrameStart :: numbered 0 descriptors
       /\ count is_ReturnAddress descriptors = 2%nat
       /\ count is_PcMarker descriptors = 3%nat
       /\ count is_CallerFp descriptors = 3%nat
       /\ count is_CallerPc descriptors = 1%nat.
Proof.
  assert (Hruns : runs_through example_info example_inner)
    by (split; [reflexivity | split; [reflexivity | intros _; reflexivity]]).
  split; [exact Hruns|].
  destruct (CreateDeoptInfo_linkage_counts
              example_FPREG example_layout example_StackSize example_Allocate
              example_pack example_info example_compiler [] example_inner
              example_builder Hruns)
    as (b' & descriptors & Hrun & Hinstrs & Hcounts).
  exists b', descriptors.
  split; [exact Hrun|]. split; [exact Hinstrs | exact Hcounts].
Defined.

Lemma CreateDeoptInfo_inlined_frame_witness :
  runs_through example_info example_inner
  /\ neighbours example_inner example_inner example_outer
  /\ exists b' before k rest,
       CreateDeoptInfo example_FPREG example_layout example_StackSize
                       example_Allocate example_pack
                       example_info example_compiler [] example_builder
         = packed example_pack [] b'
       /\ instructions_ b'
          = before
            ++ Slot k CallerFp
               :: Slot (k + 1) (ReturnAddress (Function_ref 2%nat) 21)
               :: Slot (k + 2) (PcMarker (Function_ref 1%nat))
               :: Slot (k + 3) (Constant (Object_function (Function_ref 1%nat)))
               :: Slot (k + 4)
                    (Copy (Some 1%nat) (Location_StackSlot example_FPREG 5))
               :: rest.
Proof.
  assert (Hruns : runs_through example_info example_inner)
    by (split; [reflexivity | split; [reflexivity | intros _; reflexivity]]).
  assert (Hneighbours : neighbours example_inner example_inner example_outer)
    by (apply neighbours_here; reflexivity).
  split; [exact Hruns|]. split; [exact Hneighbours|].
  destruct (CreateDeoptInfo_inlined_frame
              example_FPREG example_layout example_StackSize example_Allocate
              example_pack example_info example_compiler [] example_inner
              example_inner example_outer example_builder Hruns Hneighbours)
    as (b' & before & k & rest & Hrun & Hinstrs).
  exists b', before, k, rest.
  split; [exact Hrun | exact Hinstrs].
Defined.

Lemma CreateDeoptInfo_result_slot_witness :
  runs_through example_info example_inner
  /\ exists b' descriptors,
       CreateDeoptInfo example_FPREG example_layout example_StackSize
                       example_Allocate example_pack
                       example_info example_compiler [] example_builder
         = packed example_pack [] b'
       /\ instructions_ b'
          = MaterializeObject example_mat
            :: FrameStart :: numbered 0 descriptors
       /\ descriptors !! 5%nat
          = Some (Copy None (Location_StackSlot example_FPREG 2)).
Proof.
  assert (Hruns : runs_through example_info example_inner)
    by (split; [reflexivity | split; [reflexivity | intros _; reflexivity]]).
  split; [exact Hruns|].
  destruct (CreateDeoptInfo_result_slot
              example_FPREG example_layout example_StackSize example_Allocate
              example_pack example_info example_compiler [] example_inner
              example_builder Hruns)
    as (b' & descriptors & Hrun & Hinstrs & Hlazy & _).
  exists b', descriptors.
  split; [exact Hrun|]. split; [exact Hinstrs | exact (Hlazy eq_refl)].
Defined.

Lemma CreateDeoptInfo_copies_every_slot_once_witness :
  runs_through example_info example_inner
  /\ exists b' descriptors,
       CreateDeoptInfo example_FPREG example_layout example_StackSize
                       example_Allocate example_pack
                       example_info example_compiler [] example_builder
         = packed example_pack [] b'
       /\ instructions_ b'
          = MaterializeObject example_mat
            :: FrameStart :: numbered 0 descriptors
       /\ Permutation
            (copies descriptors)
            [Copy (Some 7%nat) (Location_Register 3);
             Copy None (Location_StackSlot example_FPREG 2);
             Copy (Some 1%nat) (Location_StackSlot example_FPREG 5);
             Copy (Some 2%nat) (Location_Register 2);
             Copy (Some 10%nat) (Location_Register 0);
             Copy (Some 11%nat) (Location_Register 1)].
Proof.
  assert (Hruns : runs_through example_info example_inner)
    by (split; [reflexivity | split; [reflexivity | intros _; reflexivity]]).
  split; [exact Hruns|].
  destruct (CreateDeoptInfo_copies_every_slot_once
              example_FPREG example_layout example_StackSize example_Allocate
              example_pack example_info example_compiler [] example_inner
              example_builder Hruns)
    as (b' & descriptors & Hrun & Hinstrs & Hcopies).
  exists b', descriptors.
  split; [exact Hrun|]. split; [exact Hinstrs | exact Hcopies].
Defined.


Lemma CreateDeoptInfo_innermost_locals_witness :
  runs_through example_info example_inner
  /\ exists b' descriptors,
       CreateDeoptInfo example_FPREG example_layout example_StackSize
                       example_Allocate example_pack
                       example_info example_compiler [] example_builder
         = packed example_pack [] b'
       /\ instructions_ b'
          = MaterializeObject example_mat
            :: FrameStart :: numbered 0 descriptors
       /\ descriptors !! 6%nat = Some (Copy (Some 2%nat) (Location_Register 2))
       /\ descriptors !! 7%nat = Some CallerFp.
Proof.
  assert (Hruns : runs_through example_info example_inner)
    by (split; [reflexivity | split; [reflexivity | intros _; reflexivity]]).
  split; [exact Hruns|].
  destruct (CreateDeoptInfo_innermost_locals
              example_FPREG example_layout example_StackSize example_Allocate
              example_pack example_info example_compiler [] example_inner
              example_builder Hruns)
    as (b' & descriptors & Hrun & Hinstrs & Hlocals & Hclose).
  exists b', descriptors.
  split; [exact Hrun|]. split; [exact Hinstrs|]. split; [|exact Hclose].
  destruct (Hlocals 0%nat ltac:(simpl; lia)) as (slot & Hslot & Hcopy).
  simpl in Hslot. injection Hslot as <-. exact Hcopy.
Defined.

Lemma EmitMove_effect_witness :
  let r := example_resolver
             [mkMoveOperands (Location_Register 0) (Location_Register 1) false;
              mkMoveOperands (Location_Register 2) (Location_Register 3) false]
  in
  let r' := after_move r 0 [Move 1 0] in
  EmitMove example_FPREG example_layout 0 r = Done tt r'
  /\ (forall i, i <> 0%nat -> moves_ r' !! i = moves_ r !! i)
  /\ length (moves_ r') = length (moves_ r).
Proof.
  intros r r'.
  assert (Hrun : EmitMove example_FPREG example_layout 0 r = Done tt r')
    by reflexivity.
  split; [exact Hrun|].
  destruct (EmitMove_effect example_FPREG example_layout r r' 0 Hrun)
    as (_ & _ & Hothers & Hlength & _).
  split; [exact Hothers | exact Hlength].
Defined.

Lemma EmitMove_succeeds_exactly_witness :
  let r := example_resolver
             [mkMoveOperands (Location_Register 0) (Location_Register 1) false]
  in
  exists r', EmitMove example_FPREG example_layout 0 r = Done tt r'.
Proof.
  intros r.
  apply (proj2 (EmitMove_succeeds_exactly example_FPREG example_layout r 0
                  _ eq_refl)).
  split; reflexivity.
Defined.

Lemma EmitMove_tagged_constant_witness :
  let zero := mkConstantInstr (Object_double positive_zero_bits) kTagged in
  let r := example_resolver
             [mkMoveOperands (Location_Constant zero) (Location_Register 3)
                             false] in
  src (mkMoveOperands (Location_Constant zero) (Location_Register 3) false)
    = Location_Constant zero
  /\ representation zero <> kUnboxedDouble
  /\ exists r',
       EmitMove example_FPREG example_layout 0 r = Done tt r'
       /\ assembler (compiler_ r')
          = [Move 0 1; LoadConstant 3 (Object_double positive_zero_bits)].
Proof.
  intros zero r.
  split; [reflexivity|]. split; [discriminate|].
  destruct (EmitMove_tagged_constant example_FPREG example_layout r 0 _ zero 3
              eq_refl eq_refl eq_refl)
    as (r' & Hrun & Hcode & _); [discriminate|].
  exists r'. split; [exact Hrun | exact Hcode].
Defined.

Lemma EmitMove_register_destination_witness :
  let r := example_resolver
             [mkMoveOperands (Location_StackSlot example_FPREG 5)
                             (Location_Register 1) false] in
  param_end_from_fp example_layout < 5
  /\ exists r',
       EmitMove example_FPREG example_layout 0 r = Done tt r'
       /\ assembler (compiler_ r') = [Move 0 1; Move 1 (-5)].
Proof.
  intros r.
  split; [reflexivity|].
  destruct (EmitMove_register_destination example_FPREG example_layout r 0
              _ 1 eq_refl eq_refl)
    as (_ & Hslot & _).
  destruct (Hslot 5 eq_refl eq_refl) as (r' & Hrun & Hcode & _).
  exists r'. split; [exact Hrun | exact Hcode].
Defined.

Lemma EmitSwap_leaves_the_rest_witness :
  let r := example_resolver
             [mkMoveOperands (Location_Register 0) (Location_Register 1) false;
              mkMoveOperands (Location_Register 5) (Location_Register 6) false;
              mkMoveOperands (Location_Register 0) (Location_Register 2) true]
  in
  exists r',
    EmitSwap 0 r = Done tt r'
    /\ length (moves_ r') = 3%nat
    /\ moves_ r' !! 1%nat = moves_ r !! 1%nat
    /\ moves_ r' !! 2%nat = moves_ r !! 2%nat.
Proof.
  intros r.
  destruct (EmitSwap_leaves_the_rest r 0 _ 0 1 eq_refl eq_refl eq_refl)
    as (r' & Hrun & Hlength & _ & Hothers).
  exists r'. split; [exact Hrun|]. split; [exact Hlength|]. split.
  - destruct (Hothers 1%nat _ ltac:(discriminate) eq_refl)
      as (other' & Hat & _ & _ & Hsame).
    rewrite Hat. simpl. f_equal. apply Hsame. right.
    split; simpl; discriminate.
  - destruct (Hothers 2%nat _ ltac:(discriminate) eq_refl)
      as (other' & Hat & _ & _ & Hsame).
    rewrite Hat. simpl. f_equal. apply Hsame. left. reflexivity.
Defined.

Lemma EmitSwap_closes_two_cycle_witness :
  let r := example_resolver
             [mkMoveOperands (Location_Register 0) (Location_Register 1) false;
              mkMoveOperands (Location_Register 1) (Location_Register 0) false]
  in
  exists r',
    EmitSwap 0 r = Done tt r'
    /\ moves_ r' !! 1%nat
       = Some (mkMoveOperands (Location_Register 0) (Location_Register 0)
                              false).
Proof.
  intros r.
  apply (EmitSwap_closes_two_cycle r 0 1 _ _ 0 1 eq_refl eq_refl eq_refl
           ltac:(discriminate) eq_refl eq_refl eq_refl eq_refl).
Defined.

Lemma EmitSwap_stops_exactly_witness :
  let r := example_resolver
             [mkMoveOperands (Location_Register 0)
                             (Location_StackSlot example_FPREG 5) false] in
  ~ exists r', EmitSwap 0 r = Done tt r'.
Proof.
  intros r Hdone.
  destruct (proj1 (proj1 (EmitSwap_stops_exactly r 0)) Hdone)
    as (move & Hmove & _ & Hdest).
  injection Hmove as <-. discriminate Hdest.
Defined.

Lemma inlined_accessors_stop_exactly_witness :
  GenerateInlinedGetter example_kWordSize example_layout 12 example_compiler
  = AssertionFailed
  /\ GenerateInlinedSetter example_kWordSize example_layout 12 example_compiler
     = AssertionFailed.
Proof.
  destruct (inlined_accessors_stop_exactly example_kWordSize example_layout
              12 example_compiler)
    as (Hgetter & Hsetter & _).
  split; [apply Hgetter | apply Hsetter]; discriminate.
Defined.

Lemma inlined_accessors_field_operand_witness :
  0 < example_kWordSize
  /\ Z.rem 1024 example_kWordSize = 0
  /\ Z.quot 1024 example_kWordSize * example_kWordSize = 1024
  /\ exists getter setter,
       GenerateInlinedGetter example_kWordSize example_layout 1024
                             example_compiler
       = Done tt getter
       /\ GenerateInlinedSetter example_kWordSize example_layout 1024
                                example_compiler
          = Done tt setter
       /\ assembler getter
          = [Move 0 1; Move 0 (-5); LoadFieldExt 0 0; Nop 128; Return 0]
       /\ assembler setter
          = [Move 0 1; Move 0 (-6); Move 1 (-5); StoreFieldExt 0 1; Nop 128;
             LoadConstant 0 Object_null; Return 0].
Proof.
  split; [reflexivity|]. split; [reflexivity|].
  destruct (inlined_accessors_field_operand example_kWordSize example_layout
              1024 example_compiler eq_refl eq_refl)
    as (Hoffset & getter & setter & load & store & Hgetter & Hsetter
        & Hload & Hstore & Hform).
  split; [exact Hoffset|].
  exists getter, setter.
  split; [exact Hgetter|]. split; [exact Hsetter|].
  destruct Hform as [(Hrange & _ & _)|(_ & -> & ->)].
  - exfalso. vm_compute in Hrange. destruct Hrange as [_ Hhigh].
    apply Hhigh. reflexivity.
  - split; [exact Hload | exact Hstore].
Defined.

Lemma intrinsic_mode_round_trip_witness :
  intrinsic_mode example_compiler = false
  /\ (EnterIntrinsicMode >> ExitIntrinsicMode) example_compiler
     = Done tt example_compiler.
Proof.
  split; [reflexivity|].
  destruct (intrinsic_mode_round_trip example_compiler eq_refl)
    as (Hround & _).
  exact Hround.
Defined.

Lemma ToEmbeddableCid_range_witness :
  ToEmbeddableCid 65535 (mkInstruction "CheckClass") example_compiler
  = Done 65535 example_compiler
  /\ ToEmbeddableCid 65536 (mkInstruction "CheckClass") example_compiler
     = BailedOut "CheckClass" example_compiler.
Proof.
  split.
  - apply (proj1 (ToEmbeddableCid_range 65535 (mkInstruction "CheckClass")
                    example_compiler)).
    lia.
  - apply (proj1 (proj2 (ToEmbeddableCid_range 65536
                           (mkInstruction "CheckClass") example_compiler))).
    lia.
Defined.
